(** * UDP tracker client (BEP 15 with the BEP 41 URL-data option)

    A shallow embedding of [tracker/udp/udp_tracker.go] and of the earlier
    revision of the same file kept in the repository (no trailer, action
    checked in the read loop, peers read through [readBody]).  The current
    file is embedded at top level and in [Module UdpTracker]; the earlier
    revision in [Module Earlier].

    Conventions.
    - Go's fixed-width integers are values of [Z] kept in range by the
      wrap-around functions below; Go's [int] is taken to be 64 bits wide.
    - A [time.Time] is the number of nanoseconds since Go's zero instant, a
      [time.Duration] a number of nanoseconds.
    - A [bytes.Buffer] or [bytes.Reader] is the list of its unread bytes.
    - What the outside world decides during one call (the clock, the random
      number generator, the socket) is given as a [World] record. *)

From Stdlib Require Import String Strings.Byte.
From Stdlib Require Import ZArith List Bool Lia.
Import ListNotations.
Open Scope Z_scope.

(** ** Machine integers *)

Definition wrap_signed (width z : Z) : Z :=
  (z + 2 ^ (width - 1)) mod 2 ^ width - 2 ^ (width - 1).

Definition to_int32 (z : Z) : Z := wrap_signed 32 z.
Definition to_int64 (z : Z) : Z := wrap_signed 64 z.
Definition to_int (z : Z) : Z := wrap_signed 64 z.
Definition to_uint16 (z : Z) : Z := z mod 2 ^ 16.

Definition MaxInt : Z := 2 ^ 63 - 1.

(** ** Bytes and big-endian words *)

Definition byte_val (b : byte) : Z := Z.of_N (Byte.to_N b).

(** Go's conversion [byte(n)]: the low eight bits. *)
Definition to_byte (z : Z) : byte :=
  match Byte.of_N (Z.to_N (z mod 256)) with
  | Some b => b
  | None => x00
  end.

(** [binary.BigEndian.Uint16/32/64]: the unsigned value of a byte string. *)
Definition be_uint (bs : list byte) : Z :=
  fold_left (fun acc b => acc * 256 + byte_val b) bs 0.

(** [binary.BigEndian.PutUint..]: the [n] low bytes of [z], high byte first. *)
Fixpoint be_put (n : nat) (z : Z) : list byte :=
  match n with
  | O => []
  | S k => be_put k (Z.shiftr z 8) ++ [to_byte z]
  end.

(** ** Time *)

Definition Time := Z.
Definition Duration := Z.

Definition Nanosecond : Duration := 1.
Definition Second : Duration := 1000000000 * Nanosecond.
Definition Minute : Duration := 60 * Second.

Definition zeroTime : Time := 0.
Definition IsZero (t : Time) : bool := t =? zeroTime.
Definition Add (t : Time) (d : Duration) : Time := t + d.
Definition Before (t u : Time) : bool := t <? u.

(** ** Errors *)

(** The error values the client can see.  [OpError] is [*net.OpError] with
    the answer of its [Timeout()] method; [OtherError] is any error of
    another dynamic type. *)
Inductive error : Type :=
| EOF
| ErrUnexpectedEOF
| ErrNotConnected
| OpError (isTimeout : bool) (text : string)
| OtherError (text : string)
| errors_New (text : string).

(** [err.Error()]. *)
Definition Error_text (e : error) : string :=
  match e with
  | EOF => "EOF"%string
  | ErrUnexpectedEOF => "unexpected EOF"%string
  | ErrNotConnected => "not connected"%string
  | OpError _ s => s
  | OtherError s => s
  | errors_New s => s
  end.

(** [fmt.Errorf(prefix + "%s", err)]: a fresh error whose text is the prefix
    followed by the text of [err]. *)
Definition fmt_Errorf (prefix : string) (e : error) : error :=
  errors_New (prefix ++ Error_text e)%string.

Definition error_eqb (a b : error) : bool :=
  match a, b with
  | EOF, EOF => true
  | ErrUnexpectedEOF, ErrUnexpectedEOF => true
  | ErrNotConnected, ErrNotConnected => true
  | OpError t s, OpError t' s' => Bool.eqb t t' && String.eqb s s'
  | OtherError s, OtherError s' => String.eqb s s'
  | errors_New s, errors_New s' => String.eqb s s'
  | _, _ => false
  end.

(** The test of the read loop: the error is a [*net.OpError] and its
    [Timeout()] is true. *)
Definition is_timeout (e : error) : bool :=
  match e with
  | OpError true _ => true
  | _ => false
  end.

(** ** Readers and [encoding/binary] *)

Definition Reader := list byte.

(** [io.ReadFull(r, buf)] with [len(buf) = n]: the reader after the call, the
    bytes read, and the error.  Nothing at all to read is [io.EOF]; some
    bytes but fewer than [n] is [io.ErrUnexpectedEOF]. *)
Definition ReadFull (r : Reader) (n : nat) : Reader * list byte * option error :=
  match n, r with
  | O, _ => (r, [], None)
  | _, [] => (r, [], Some EOF)
  | _, _ =>
      if (length r <? n)%nat then ([], r, Some ErrUnexpectedEOF)
      else (skipn n r, firstn n r, None)
  end.

(** A value [binary.Read] can fill in: its encoded size and its big-endian
    decoder. *)
Class Fixed (A : Type) := {
  dataSize : nat;
  decode : list byte -> A
}.

(** [binary.Read(r, binary.BigEndian, &v)]. *)
Definition binary_Read {A : Type} `{Fixed A} (r : Reader) : Reader * (A + error) :=
  match ReadFull r dataSize with
  | (r', bs, None) => (r', inl (decode bs))
  | (r', _, Some e) => (r', inr e)
  end.

(** ** Wire structures *)

Definition Action := Z.
Definition Connect : Action := 0.
Definition Announce : Action := 1.
Definition Scrape : Action := 2.
Definition Error : Action := 3.

Definition optionTypeEndOfOptions : Z := 0.
Definition optionTypeNOP : Z := 1.
Definition optionTypeURLData : Z := 2.

Record ConnectionResponse := { cr_ConnectionId : Z }.

Record ResponseHeader := { rh_Action : Action; rh_TransactionId : Z }.

Record RequestHeader := {
  rq_ConnectionId : Z;
  rq_Action : Action;
  rq_TransactionId : Z
}.

Record AnnounceResponseHeader := { Interval : Z; Leechers : Z; Seeders : Z }.

Record Peer := { IP : list byte; Port : Z }.

#[export] Instance Fixed_ConnectionResponse : Fixed ConnectionResponse := {
  dataSize := 8;
  decode bs := {| cr_ConnectionId := to_int64 (be_uint bs) |}
}.

#[export] Instance Fixed_ResponseHeader : Fixed ResponseHeader := {
  dataSize := 8;
  decode bs :=
    {| rh_Action := to_int32 (be_uint (firstn 4 bs));
       rh_TransactionId := to_int32 (be_uint (skipn 4 bs)) |}
}.

#[export] Instance Fixed_AnnounceResponseHeader : Fixed AnnounceResponseHeader := {
  dataSize := 12;
  decode bs :=
    {| Interval := to_int32 (be_uint (firstn 4 bs));
       Leechers := to_int32 (be_uint (firstn 4 (skipn 4 bs)));
       Seeders := to_int32 (be_uint (skipn 8 bs)) |}
}.

#[export] Instance Fixed_Peer : Fixed Peer := {
  dataSize := 6;
  decode bs := {| IP := firstn 4 bs; Port := be_uint (skipn 4 bs) |}
}.

(** [binary.Write(buf, binary.BigEndian, h)] for a request header: 16 bytes. *)
Definition encode_RequestHeader (h : RequestHeader) : list byte :=
  be_put 8 (rq_ConnectionId h) ++ be_put 4 (rq_Action h) ++ be_put 4 (rq_TransactionId h).

(** ** The tracker package's shapes used by this client *)

Module tracker.

(** Modelled from the spec: the caller-facing peer of the generic tracker
    package (an address and a port), whose declaration is not part of the
    files embedded here. *)
Record Peer := { IP : list byte; Port : Z }.

(** Modelled from the spec: the caller-facing announce result (interval,
    leechers, seeders, peers) of the generic tracker package. *)
Record AnnounceResponse := {
  Interval : Z;
  Leechers : Z;
  Seeders : Z;
  Peers : list Peer
}.

(** The zero value of [AnnounceResponse], which a named result starts as. *)
Definition zeroAnnounceResponse : AnnounceResponse :=
  {| Interval := 0; Leechers := 0; Seeders := 0; Peers := [] |}.

End tracker.

(** ** [newTransactionId] and [timeout] *)

Definition newTransactionId (rand_Uint32 : Z) : Z := to_int32 rand_Uint32.

(** The loop [for ; contiguousTimeouts > 0; contiguousTimeouts-- { d *= 2 }]. *)
Fixpoint timeout_loop (fuel : nat) (contiguousTimeouts : Z) (d : Duration) : option Duration :=
  if contiguousTimeouts >? 0 then
    match fuel with
    | O => None
    | S k => timeout_loop k (to_int (contiguousTimeouts - 1)) (to_int64 (d * 2))
    end
  else Some d.

Definition timeout_opt (contiguousTimeouts : Z) : option Duration :=
  let contiguousTimeouts := if contiguousTimeouts >? 8 then 8 else contiguousTimeouts in
  timeout_loop 8 contiguousTimeouts (15 * Second).

(** [timeout_opt] is never [None] (lemma [timeout_opt_total] below), so the
    default is not reachable. *)
Definition timeout (contiguousTimeouts : Z) : Duration :=
  match timeout_opt contiguousTimeouts with
  | Some d => d
  | None => 0
  end.

(** ** Outcomes of a call *)

(** A call returns, panics, or is still running when the model has used up
    the socket events (or the fuel) it was given. *)
Inductive Outcome (A : Type) : Type :=
| Returns (a : A)
| Panics (v : string)
| Unfinished.

Arguments Returns {A} a.
Arguments Panics {A} v.
Arguments Unfinished {A}.

Definition bind {A B : Type} (m : Outcome A) (k : A -> Outcome B) : Outcome B :=
  match m with
  | Returns a => k a
  | Panics v => Panics v
  | Unfinished => Unfinished
  end.

Declare Scope outcome_scope.
Delimit Scope outcome_scope with outcome.
Notation "x <- m ;; k" := (bind m (fun x => k))
  (at level 61, m at next level, right associativity) : outcome_scope.
Notation "' p <- m ;; k" := (bind m (fun x => match x with p => k end))
  (at level 61, p pattern, m at next level, right associativity) : outcome_scope.
Open Scope outcome_scope.

(** ** The world around one call *)

(** What one [c.socket.Read(b)] gives: a datagram, or an error. *)
Inductive ReadResult : Type :=
| Datagram (payload : list byte)
| ReadError (e : error).

(** The request body handed to [binary.Write]: the nil interface, a value
    with its big-endian encoding, or a value [binary.Write] rejects. *)
Inductive Body : Type :=
| nilBody
| Serializable (encoding : list byte)
| Unserializable (e : error).

Record World := {
  Now_connected : Time;                 (* time.Now() in connected() *)
  Dial_error : option error;            (* err of net.Dial("udp", host) *)
  rand_Uint32 : Z;                      (* rand.Uint32() *)
  Write_result : Z * option error;      (* n, err of c.socket.Write *)
  Now_deadline : Time;                  (* time.Now() for the deadline *)
  Reads : list ReadResult;              (* successive c.socket.Read results *)
  Now_received : Time                   (* time.Now() after the handshake *)
}.

(** A [net.Conn]: where it was dialed to, its read and write deadlines (the
    zero time is none), and the datagrams handed to [Write] so far. *)
Record Conn := {
  RemoteAddr : string;
  ReadDeadline : Time;
  WriteDeadline : Time;
  Written : list (list byte)
}.

Record URL := { Host : string; RequestURI : string }.

(** The read buffer: [make([]byte, 0x10000)]. *)
Definition readBufferSize : nat := Z.to_nat 0x10000.

(** The same world with other socket reads to come. *)
Definition with_Reads (w : World) (reads : list ReadResult) : World :=
  {| Now_connected := Now_connected w;
     Dial_error := Dial_error w;
     rand_Uint32 := rand_Uint32 w;
     Write_result := Write_result w;
     Now_deadline := Now_deadline w;
     Reads := reads;
     Now_received := Now_received w |}.

(** A slice of [n] peers as one datum of [binary.Read]: [n] records of six
    bytes, decoded in order. *)
Fixpoint decode_Peers (n : nat) (bs : list byte) : list Peer :=
  match n with
  | O => []
  | S k => decode (firstn 6 bs) :: decode_Peers k (skipn 6 bs)
  end.

Definition Fixed_Peers (n : nat) : Fixed (list Peer) :=
  {| dataSize := 6 * n; decode := decode_Peers n |}.

(** ** The client of [tracker/udp/udp_tracker.go] *)

Module UdpTracker.

Record client := {
  contiguousTimeouts : Z;
  connectionIdReceived : Time;
  connectionId : Z;
  socket : option Conn;
  url : URL
}.

Definition newClient (u : URL) : client :=
  {| contiguousTimeouts := 0;
     connectionIdReceived := zeroTime;
     connectionId := 0;
     socket := None;
     url := u |}.

Definition set_contiguousTimeouts (c : client) (n : Z) : client :=
  {| contiguousTimeouts := n;
     connectionIdReceived := connectionIdReceived c;
     connectionId := connectionId c;
     socket := socket c;
     url := url c |}.

Definition set_connectionIdReceived (c : client) (t : Time) : client :=
  {| contiguousTimeouts := contiguousTimeouts c;
     connectionIdReceived := t;
     connectionId := connectionId c;
     socket := socket c;
     url := url c |}.

Definition set_connectionId (c : client) (id : Z) : client :=
  {| contiguousTimeouts := contiguousTimeouts c;
     connectionIdReceived := connectionIdReceived c;
     connectionId := id;
     socket := socket c;
     url := url c |}.

Definition set_socket (c : client) (s : option Conn) : client :=
  {| contiguousTimeouts := contiguousTimeouts c;
     connectionIdReceived := connectionIdReceived c;
     connectionId := connectionId c;
     socket := s;
     url := url c |}.

(** [c.socket.SetReadDeadline(t)]. *)
Definition SetReadDeadline (s : Conn) (t : Time) : Conn :=
  {| RemoteAddr := RemoteAddr s;
     ReadDeadline := t;
     WriteDeadline := WriteDeadline s;
     Written := Written s |}.

(** The socket after [Write(p)] was called on it. *)
Definition wrote (s : Conn) (p : list byte) : Conn :=
  {| RemoteAddr := RemoteAddr s;
     ReadDeadline := ReadDeadline s;
     WriteDeadline := WriteDeadline s;
     Written := Written s ++ [p] |}.

(** [func (c *client) write(h *RequestHeader, body interface{}, trailer []byte)].
    The header always encodes; [buf.Write(trailer)] of a [bytes.Buffer] never
    returns an error. *)
Definition write (c : client) (h : RequestHeader) (body : Body) (trailer : list byte)
    (w : World) : Outcome (client * option error) :=
  let buf := encode_RequestHeader h in
  match body with
  | Unserializable e => Panics (Error_text e)
  | _ =>
      let buf := match body with
                 | Serializable bs => buf ++ bs
                 | _ => buf
                 end in
      let buf := buf ++ trailer in
      match socket c with
      | None => Panics "invalid memory address or nil pointer dereference"
      | Some s =>
          let c := set_socket c (Some (wrote s buf)) in
          match Write_result w with
          | (_, Some err) => Returns (c, Some err)
          | (n, None) =>
              if negb (n =? Z.of_nat (length buf))
              then Panics "write should send all or error"
              else Returns (c, None)
          end
      end
  end.

(** The [for] loop of [request], one iteration per socket read. *)
Fixpoint request_loop (reads : list ReadResult) (c : client) (tid : Z)
    : Outcome (client * option Reader * option error) :=
  match reads with
  | [] => Unfinished
  | ReadError err :: reads' =>
      if is_timeout err
      then Returns (set_contiguousTimeouts c (to_int (contiguousTimeouts c + 1)),
                    None, Some err)
      else Returns (c, None, Some err)
  | Datagram payload :: reads' =>
      let buf := firstn readBufferSize payload in
      match binary_Read (A := ResponseHeader) buf with
      | (_, inr ErrUnexpectedEOF) => request_loop reads' c tid
      | (_, inr err) => Returns (c, None, Some err)
      | (buf, inl h) =>
          if negb (rh_TransactionId h =? tid) then request_loop reads' c tid
          else
            let c := set_contiguousTimeouts c 0 in
            let err := if rh_Action h =? Error
                       then Some (errors_New (string_of_list_byte buf))
                       else None in
            Returns (c, Some buf, err)
      end
  end.

(** [func (c *client) request(action Action, args interface{}, options []byte)]. *)
Definition request (c : client) (action : Action) (args : Body) (options : list byte)
    (w : World) : Outcome (client * option Reader * option error) :=
  let tid := newTransactionId (rand_Uint32 w) in
  '(c, err) <- write c {| rq_ConnectionId := connectionId c;
                          rq_Action := action;
                          rq_TransactionId := tid |} args options w ;;
  match err with
  | Some e => Returns (c, None, Some e)
  | None =>
      match socket c with
      | None => Panics "invalid memory address or nil pointer dereference"
      | Some s =>
          let c := set_socket c (Some (SetReadDeadline s
                     (Add (Now_deadline w) (timeout (contiguousTimeouts c))))) in
          request_loop (Reads w) c tid
      end
  end.

(** [readBody(r, &v)] with one datum. *)
Definition readBody {A : Type} `{Fixed A} (r : Reader) : Reader * (A + error) :=
  binary_Read r.

(** [func (c *client) connected() bool], with the value of [time.Now()]. *)
Definition connected (c : client) (now : Time) : bool :=
  negb (IsZero (connectionIdReceived c))
  && Before now (Add (connectionIdReceived c) Minute).

(** The socket [net.Dial("udp", host)] gives when it succeeds. *)
Definition dialed (host : string) : Conn :=
  {| RemoteAddr := host; ReadDeadline := zeroTime; WriteDeadline := zeroTime;
     Written := [] |}.

(** [func (c *client) Connect() (err error)]. *)
Definition Connect (c : client) (w : World) : Outcome (client * option error) :=
  if connected c (Now_connected w) then Returns (c, None)
  else
    let c := set_connectionId c 0x41727101980 in
    let '(c, err) :=
      match socket c with
      | None =>
          match Dial_error w with
          | Some e => (c, Some e)
          | None => (set_socket c (Some (dialed (Host (url c)))), None)
          end
      | Some _ => (c, None)
      end in
    match err with
    | Some e => Returns (c, Some e)
    | None =>
        '(c, b, err) <- request c Connect nilBody [] w ;;
        match err, b with
        | Some e, _ => Returns (c, Some e)
        | None, None => Panics "invalid memory address or nil pointer dereference"
        | None, Some b =>
            match readBody (A := ConnectionResponse) b with
            | (_, inr e) => Returns (c, Some e)
            | (_, inl res) =>
                let c := set_connectionId c (cr_ConnectionId res) in
                let c := set_connectionIdReceived c (Now_received w) in
                Returns (c, None)
            end
        end
    end.

(** The trailer [Announce] builds:
    [append([]byte{optionTypeURLData, byte(len(reqURI))}, []byte(reqURI)...)]. *)
Definition announce_options (reqURI : string) : list byte :=
  [to_byte optionTypeURLData; to_byte (Z.of_nat (String.length reqURI))]
  ++ list_byte_of_string reqURI.

Definition to_tracker_Peer (p : Peer) : tracker.Peer :=
  {| tracker.IP := IP p; tracker.Port := Port p |}.

Definition append_Peer (res : tracker.AnnounceResponse) (p : Peer)
    : tracker.AnnounceResponse :=
  {| tracker.Interval := tracker.Interval res;
     tracker.Leechers := tracker.Leechers res;
     tracker.Seeders := tracker.Seeders res;
     tracker.Peers := tracker.Peers res ++ [to_tracker_Peer p] |}.

(** The peer loop of [Announce]: read one [Peer] after another until the
    reader reports [io.EOF] (the end, no error) or any other error. *)
Fixpoint Announce_peers (fuel : nat) (b : Reader) (res : tracker.AnnounceResponse)
    : Outcome (tracker.AnnounceResponse * option error) :=
  match fuel with
  | O => Unfinished
  | S fuel' =>
      match binary_Read (A := Peer) b with
      | (b, inl p) => Announce_peers fuel' b (append_Peer res p)
      | (_, inr EOF) => Returns (res, None)
      | (_, inr err) => Returns (res, Some err)
      end
  end.

(** What [Announce] does with the response body [b] that [request] returned:
    the announce header, then the peers. *)
Definition Announce_response (b : Reader)
    : Outcome (tracker.AnnounceResponse * option error) :=
  match readBody (A := AnnounceResponseHeader) b with
  | (_, inr err) =>
      let err := if error_eqb err EOF then ErrUnexpectedEOF else err in
      Returns (tracker.zeroAnnounceResponse,
               Some (fmt_Errorf "error parsing announce response: " err))
  | (b, inl h) =>
      let res := {| tracker.Interval := Interval h;
                    tracker.Leechers := Leechers h;
                    tracker.Seeders := Seeders h;
                    tracker.Peers := [] |} in
      Announce_peers (S (length b)) b res
  end.

(** [func (c *client) Announce(req *tracker.AnnounceRequest)]. *)
Definition Announce (c : client) (req : Body) (w : World)
    : Outcome (client * tracker.AnnounceResponse * option error) :=
  if negb (connected c (Now_connected w))
  then Returns (c, tracker.zeroAnnounceResponse, Some ErrNotConnected)
  else
    let reqURI := RequestURI (url c) in
    let options := announce_options reqURI in
    '(c, b, err) <- request c Announce req options w ;;
    match err, b with
    | Some e, _ => Returns (c, tracker.zeroAnnounceResponse, Some e)
    | None, None => Panics "invalid memory address or nil pointer dereference"
    | None, Some b =>
        '(res, err) <- Announce_response b ;;
        Returns (c, res, err)
    end.

(** *** Vocabulary for the statements about [request] *)

(** The datagram [write] assembles. *)
Definition request_datagram (c : client) (action : Action) (args : Body)
    (options : list byte) (w : World) : list byte :=
  encode_RequestHeader {| rq_ConnectionId := connectionId c;
                          rq_Action := action;
                          rq_TransactionId := newTransactionId (rand_Uint32 w) |}
  ++ match args with Serializable bs => bs | _ => [] end
  ++ options.

(** The request goes out: the body encodes, there is a socket, and its
    [Write] reports the whole datagram sent and no error. *)
Definition write_ok (c : client) (action : Action) (args : Body)
    (options : list byte) (w : World) : bool :=
  match args, socket c, Write_result w with
  | Unserializable _, _, _ => false
  | _, Some _, (n, None) =>
      n =? Z.of_nat (length (request_datagram c action args options w))
  | _, _, _ => false
  end.

(** The client once the request is out and the read deadline is set. *)
Definition listening (c : client) (action : Action) (args : Body)
    (options : list byte) (w : World) : client :=
  match socket c with
  | None => c
  | Some s =>
      set_socket c (Some (SetReadDeadline
        (wrote s (request_datagram c action args options w))
        (Add (Now_deadline w) (timeout (contiguousTimeouts c)))))
  end.

(** A read result the loop of a call with transaction id [tid] passes over:
    a datagram of one to seven bytes, or one with a whole header and another
    transaction id. *)
Definition passed_over (tid : Z) (r : ReadResult) : bool :=
  match r with
  | ReadError _ => false
  | Datagram payload =>
      let buf := firstn readBufferSize payload in
      if (length buf =? 0)%nat then false
      else if (length buf <? 8)%nat then true
      else negb (to_int32 (be_uint (firstn 4 (skipn 4 buf))) =? tid)
  end.

End UdpTracker.

(** ** The earlier revision of the client

    The same package before the trailer, the [Error] action and the explicit
    [Connect] were added.  It has no [url] field, never dials (the socket is
    whatever the [client] value holds), checks the action as well as the
    transaction id in the read loop, and hands the response body on as a
    byte slice. *)

Module Earlier.

Record client := {
  contiguousTimeouts : Z;
  connectionIdReceived : Time;
  connectionId : Z;
  socket : option Conn
}.

Definition newClient : client :=
  {| contiguousTimeouts := 0;
     connectionIdReceived := zeroTime;
     connectionId := 0;
     socket := None |}.

Definition set_contiguousTimeouts (c : client) (n : Z) : client :=
  {| contiguousTimeouts := n;
     connectionIdReceived := connectionIdReceived c;
     connectionId := connectionId c;
     socket := socket c |}.

Definition set_connectionIdReceived (c : client) (t : Time) : client :=
  {| contiguousTimeouts := contiguousTimeouts c;
     connectionIdReceived := t;
     connectionId := connectionId c;
     socket := socket c |}.

Definition set_connectionId (c : client) (id : Z) : client :=
  {| contiguousTimeouts := contiguousTimeouts c;
     connectionIdReceived := connectionIdReceived c;
     connectionId := id;
     socket := socket c |}.

Definition set_socket (c : client) (s : option Conn) : client :=
  {| contiguousTimeouts := contiguousTimeouts c;
     connectionIdReceived := connectionIdReceived c;
     connectionId := connectionId c;
     socket := s |}.

(** [c.socket.SetDeadline(t)]: the read and the write deadline. *)
Definition SetDeadline (s : Conn) (t : Time) : Conn :=
  {| RemoteAddr := RemoteAddr s;
     ReadDeadline := t;
     WriteDeadline := t;
     Written := Written s |}.

(** [func (c *client) write(h *RequestHeader, body interface{})].  The body
    is handed to [binary.Write] whatever it is; the nil interface is not a
    value [binary.Write] can encode, so that call does not come back. *)
Definition write (c : client) (h : RequestHeader) (body : Body) (w : World)
    : Outcome (client * option error) :=
  let buf := encode_RequestHeader h in
  match body with
  | Unserializable e => Panics (Error_text e)
  | nilBody => Panics "binary.Write: invalid type"
  | Serializable bs =>
      let buf := buf ++ bs in
      match socket c with
      | None => Panics "invalid memory address or nil pointer dereference"
      | Some s =>
          let c := set_socket c (Some (UdpTracker.wrote s buf)) in
          match Write_result w with
          | (_, Some err) => Returns (c, Some err)
          | (n, None) =>
              if negb (n =? Z.of_nat (length buf))
              then Panics "write should send all or error"
              else Returns (c, None)
          end
      end
  end.

(** The [for] loop of [request]. *)
Fixpoint request_loop (reads : list ReadResult) (c : client) (action : Action) (tid : Z)
    : Outcome (client * list byte * option error) :=
  match reads with
  | [] => Unfinished
  | ReadError err :: reads' =>
      if is_timeout err
      then Returns (set_contiguousTimeouts c (to_int (contiguousTimeouts c + 1)),
                    [], Some err)
      else Returns (c, [], Some err)
  | Datagram payload :: reads' =>
      let buf := firstn readBufferSize payload in
      match binary_Read (A := ResponseHeader) buf with
      | (_, inr ErrUnexpectedEOF) => request_loop reads' c action tid
      | (_, inr err) => Returns (c, [], Some err)
      | (buf, inl h) =>
          if negb (rh_Action h =? action) then request_loop reads' c action tid
          else if negb (rh_TransactionId h =? tid) then request_loop reads' c action tid
          else Returns (set_contiguousTimeouts c 0, buf, None)
      end
  end.

(** [func (c *client) request(action Action, args interface{})]. *)
Definition request (c : client) (action : Action) (args : Body) (w : World)
    : Outcome (client * list byte * option error) :=
  let tid := newTransactionId (rand_Uint32 w) in
  '(c, err) <- write c {| rq_ConnectionId := connectionId c;
                          rq_Action := action;
                          rq_TransactionId := tid |} args w ;;
  match err with
  | Some e => Returns (c, [], Some e)
  | None =>
      match socket c with
      | None => Panics "invalid memory address or nil pointer dereference"
      | Some s =>
          let c := set_socket c (Some (SetDeadline s
                     (Add (Now_deadline w) (timeout (contiguousTimeouts c))))) in
          request_loop (Reads w) c action tid
      end
  end.

(** [readBody(b, &v)]. *)
Definition readBody {A : Type} `{Fixed A} (b : list byte) : A + error :=
  snd (binary_Read b).

(** [readBody(b, &h, &ps)]: the data are read in turn from one reader and
    the first error ends the reading. *)
Definition readBody2 {A B : Type} (FA : Fixed A) (FB : Fixed B) (b : list byte)
    : (A * B) + error :=
  match binary_Read (A := A) b with
  | (_, inr e) => inr e
  | (r, inl x) =>
      match binary_Read (A := B) r with
      | (_, inr e) => inr e
      | (_, inl y) => inl (x, y)
      end
  end.

(** [func (c *client) connect() (err error)]. *)
Definition connect (c : client) (w : World) : Outcome (client * option error) :=
  if negb (IsZero (connectionIdReceived c))
     && Before (Now_connected w) (Add (connectionIdReceived c) Minute)
  then Returns (c, None)
  else
    let c := set_connectionId c 0x41727101980 in
    '(c, b, err) <- request c Connect nilBody w ;;
    match err with
    | Some e => Returns (c, Some e)
    | None =>
        match readBody (A := ConnectionResponse) b with
        | inr e => Returns (c, Some e)
        | inl res =>
            let c := set_connectionId c (cr_ConnectionId res) in
            let c := set_connectionIdReceived c (Now_received w) in
            Returns (c, None)
        end
    end.

(** What [Announce] does with the response body: [ps] is a nil slice when
    [readBody] is called, that is a slice of no peers. *)
Definition Announce_response (b : list byte) : tracker.AnnounceResponse * option error :=
  match readBody2 Fixed_AnnounceResponseHeader (Fixed_Peers 0) b with
  | inr err => (tracker.zeroAnnounceResponse, Some err)
  | inl (h, ps) =>
      ({| tracker.Interval := Interval h;
          tracker.Leechers := Leechers h;
          tracker.Seeders := Seeders h;
          tracker.Peers := map UdpTracker.to_tracker_Peer ps |}, None)
  end.

(** [func (c *client) Announce(req *tracker.AnnounceRequest)]: [w0] is the
    world of the call of [connect], [w] the world of the announce request
    that follows it. *)
Definition Announce (c : client) (req : Body) (w0 w : World)
    : Outcome (client * tracker.AnnounceResponse * option error) :=
  '(c, err) <- connect c w0 ;;
  match err with
  | Some e => Returns (c, tracker.zeroAnnounceResponse, Some e)
  | None =>
      '(c, b, err) <- request c Announce req w ;;
      match err with
      | Some e => Returns (c, tracker.zeroAnnounceResponse, Some e)
      | None =>
          let '(res, err) := Announce_response b in
          Returns (c, res, err)
      end
  end.

End Earlier.

(** ** Sample values for concrete runs *)

(** A response datagram: the header and the body after it. *)
Definition response_datagram (action tid : Z) (body : list byte) : list byte :=
  be_put 4 action ++ be_put 4 tid ++ body.

Definition sample_URL : URL :=
  {| Host := "tracker.example.org:6969"; RequestURI := "/announce" |}.

(** A world whose socket takes [sent] bytes and then gives [reads]. *)
Definition sample_World (sent : Z) (reads : list ReadResult) : World :=
  {| Now_connected := 1000 * Second;
     Dial_error := None;
     rand_Uint32 := 0xCAFEF00D;
     Write_result := (sent, None);
     Now_deadline := 1000 * Second;
     Reads := reads;
     Now_received := 1001 * Second |}.

Definition sample_tid : Z := newTransactionId 0xCAFEF00D.

(** A client that was just made, and one that holds a connection id received
    at second 999. *)
Definition sample_new : UdpTracker.client := UdpTracker.newClient sample_URL.

Definition sample_connected : UdpTracker.client :=
  {| UdpTracker.contiguousTimeouts := 3;
     UdpTracker.connectionIdReceived := 999 * Second;
     UdpTracker.connectionId := 0x1122334455667788;
     UdpTracker.socket := Some (UdpTracker.dialed (Host sample_URL));
     UdpTracker.url := sample_URL |}.

(** The bytes of ["rate limited"]. *)
Definition rate_limited : list byte := list_byte_of_string "rate limited".

(** The reading of the correlation rule under which the action counts as
    well: [request] drops every datagram whose header does not carry both
    the requested action and the transaction id of the call. *)
Definition drops_unless_action_and_transaction_match : Prop :=
  forall (c : UdpTracker.client) (action : Action) (args : Body) (options : list byte)
         (w : World) (p body : list byte) (h : ResponseHeader) (rest : list ReadResult),
    binary_Read (firstn readBufferSize p) = (body, inl h) ->
    ~ (rh_Action h = action /\ rh_TransactionId h = newTransactionId (rand_Uint32 w)) ->
    UdpTracker.request c action args options (with_Reads w (Datagram p :: rest))
    = UdpTracker.request c action args options (with_Reads w rest).

(** The trailer under the reading that caps the path: the type byte, the
    number of path bytes kept, and at most 255 bytes of the request URI. *)
Definition truncated_trailer (reqURI : string) : list byte :=
  let path := firstn 255 (list_byte_of_string reqURI) in
  [to_byte optionTypeURLData; to_byte (Z.of_nat (length path))] ++ path.

(** A request URI of 256 bytes. *)
Definition long_URI : string := string_of_list_byte (repeat "a"%byte 256).

(** The connect response of the scenario: the call's transaction id and the
    connection id [0x1122334455667788]. *)
Definition sample_connect_reply : list byte :=
  response_datagram Connect sample_tid (be_put 8 0x1122334455667788).

(** An announce response body: interval 1800, 2 leechers, 5 seeders, and the
    peers 10.0.0.1:6881 and 10.0.0.2:51413. *)
Definition sample_announce_body : list byte :=
  be_put 4 1800 ++ be_put 4 2 ++ be_put 4 5
  ++ ["010"; "000"; "000"; "001"]%byte ++ be_put 2 6881
  ++ ["010"; "000"; "000"; "002"]%byte ++ be_put 2 51413.

Definition io_timeout : error := OpError true "read udp: i/o timeout".
Definition connection_refused : error := OpError false "read udp: connection refused".

(** Two datagrams the loop passes over: a fragment of three bytes, and a
    whole announce response to another transaction. *)
Definition sample_noise : list ReadResult :=
  [Datagram ["000"; "000"; "000"]%byte;
   Datagram (response_datagram Announce 7 sample_announce_body)].

(** The options of the sample URL. *)
Definition sample_options : list byte := UdpTracker.announce_options "/announce".

(** A world in which the tracker cannot be dialed. *)
Definition unreachable_World : World :=
  {| Now_connected := 1000 * Second;
     Dial_error := Some (OpError false "dial udp: lookup tracker.example.org: no such host");
     rand_Uint32 := 0xCAFEF00D;
     Write_result := (16, None);
     Now_deadline := 1000 * Second;
     Reads := [];
     Now_received := 1001 * Second |}.

(** An error response to the sample call, and a connect response that
    carries the sample call's transaction id. *)
Definition sample_error_reply : list byte :=
  response_datagram Error sample_tid rate_limited.

Definition sample_connect_header : ResponseHeader :=
  {| rh_Action := Connect; rh_TransactionId := sample_tid |}.

(** The read deadline of the client's socket (the zero time without one). *)
Definition deadline_of (c : UdpTracker.client) : Time :=
  match UdpTracker.socket c with
  | Some s => ReadDeadline s
  | None => zeroTime
  end.

(** The matching announce response of the scenario. *)
Definition sample_announce_reply : list byte :=
  response_datagram Announce sample_tid sample_announce_body.

(** ** Vocabulary for the handshake *)

(** The client [Connect] hands to [request] when it has to connect and can:
    the bootstrap connection id set, and a socket dialed if there was none. *)
Definition handshaking (c : UdpTracker.client) : UdpTracker.client :=
  let c := UdpTracker.set_connectionId c 0x41727101980 in
  match UdpTracker.socket c with
  | Some _ => c
  | None => UdpTracker.set_socket c (Some (UdpTracker.dialed (Host (UdpTracker.url c))))
  end.

(** The same world with another answer of [net.Dial]. *)
Definition with_Dial_error (w : World) (e : option error) : World :=
  {| Now_connected := Now_connected w;
     Dial_error := e;
     rand_Uint32 := rand_Uint32 w;
     Write_result := Write_result w;
     Now_deadline := Now_deadline w;
     Reads := Reads w;
     Now_received := Now_received w |}.

(** A decoded peer as the wire allows it: four address bytes and a port of
    sixteen bits. *)
Definition wire_Peer (p : tracker.Peer) : Prop :=
  length (tracker.IP p) = 4%nat /\ 0 <= tracker.Port p < 2 ^ 16.

(** The sample world two thousand seconds in: the connection id of
    [sample_connected] has expired. *)
Definition later_World (sent : Z) (reads : list ReadResult) : World :=
  {| Now_connected := 2000 * Second;
     Dial_error := None;
     rand_Uint32 := 0xCAFEF00D;
     Write_result := (sent, None);
     Now_deadline := 2000 * Second;
     Reads := reads;
     Now_received := 2001 * Second |}.

(** A client of the earlier revision that holds a socket and a connection
    id received at second 999. *)
Definition sample_earlier : Earlier.client :=
  {| Earlier.contiguousTimeouts := 2;
     Earlier.connectionIdReceived := 999 * Second;
     Earlier.connectionId := 0x1122334455667788;
     Earlier.socket := Some (UdpTracker.dialed "tracker.example.org:6969") |}.

(** * Properties *)

(** ** Integers, readers, [binary.Read] *)

Lemma to_int_id (z : Z) : - 2 ^ 63 <= z < 2 ^ 63 -> to_int z = z.
Proof.
  intros Hz. unfold to_int, wrap_signed.
  replace (64 - 1) with 63 by lia.
  replace (2 ^ 64) with (2 * 2 ^ 63) by (rewrite <- Z.pow_succ_r; [reflexivity | lia]).
  rewrite Z.mod_small; lia.
Qed.

Lemma to_byte_val (z : Z) : byte_val (to_byte z) = z mod 256.
Proof.
  assert (Hz : 0 <= z mod 256 < 256) by (apply Z.mod_pos_bound; lia).
  unfold byte_val, to_byte.
  destruct (Byte.of_N (Z.to_N (z mod 256))) as [b|] eqn:E.
  - apply Byte.to_of_N in E. rewrite E. lia.
  - apply Byte.of_N_None_iff in E. lia.
Qed.

Lemma length_list_byte_of_string (s : string) :
  length (list_byte_of_string s) = String.length s.
Proof.
  unfold list_byte_of_string. rewrite length_map.
  induction s as [|a s IH]; [reflexivity|].
  cbn [list_ascii_of_string String.length length]. f_equal. exact IH.
Qed.

Lemma readBufferSize_firstn (p : list byte) :
  Z.of_nat (length p) <= 0x10000 -> firstn readBufferSize p = p.
Proof.
  intros Hp. apply firstn_all2. unfold readBufferSize. lia.
Qed.

Section BinaryRead.

Context {A : Type} {F : Fixed A}.
Hypothesis dataSize_pos : (0 < dataSize)%nat.

Lemma binary_Read_empty : binary_Read (A := A) [] = ([], inr EOF).
Proof.
  unfold binary_Read, ReadFull.
  destruct dataSize; [lia | reflexivity].
Qed.

Lemma binary_Read_short (r : Reader) :
  (0 < length r < dataSize)%nat ->
  binary_Read (A := A) r = ([], inr ErrUnexpectedEOF).
Proof.
  intros [Hr Hn]. unfold binary_Read, ReadFull.
  destruct dataSize as [|n] eqn:En; [lia|].
  destruct r as [|b r]; [simpl in Hr; lia|].
  apply Nat.ltb_lt in Hn. rewrite Hn. reflexivity.
Qed.

Lemma binary_Read_enough (r : Reader) :
  (dataSize <= length r)%nat ->
  binary_Read (A := A) r = (skipn dataSize r, inl (decode (firstn dataSize r))).
Proof.
  intros Hn. unfold binary_Read, ReadFull.
  destruct dataSize as [|n] eqn:En; [lia|].
  destruct r as [|b r]; [simpl in Hn; lia|].
  apply Nat.ltb_ge in Hn. rewrite Hn. reflexivity.
Qed.

End BinaryRead.

(** ** [timeout] *)

Lemma timeout_opt_total (n : Z) : timeout_opt n = Some (timeout n).
Proof.
  unfold timeout. destruct (timeout_opt n) eqn:E; [reflexivity|].
  exfalso. unfold timeout_opt in E.
  destruct (n >? 8) eqn:E8; [vm_compute in E; discriminate E|].
  destruct (n >? 0) eqn:E0.
  - assert (H : n = 1 \/ n = 2 \/ n = 3 \/ n = 4 \/ n = 5 \/ n = 6 \/ n = 7 \/ n = 8) by lia.
    intuition (subst n; vm_compute in E; discriminate E).
  - unfold timeout_loop in E. rewrite E0 in E. discriminate E.
Qed.

Lemma timeout_capped (n : Z) : 8 <= n -> timeout n = 3840 * Second.
Proof.
  intros H8. unfold timeout, timeout_opt.
  destruct (n >? 8) eqn:E8; [vm_compute; reflexivity|].
  assert (n = 8) by lia. subst n. vm_compute. reflexivity.
Qed.

(** C3. [timeout n] is 15 seconds doubled [min n 8] times: 15 s at 0, 120 s
    at 3, and 3840 s from 8 on; the doubling loop always runs to its end. *)
Theorem timeout_backoff (n : Z) (Hn : 0 <= n) :
  timeout_opt n = Some (timeout n)
  /\ timeout n = 15 * Second * 2 ^ Z.min n 8
  /\ timeout 0 = 15 * Second
  /\ timeout 3 = 120 * Second
  /\ (8 <= n -> timeout n = 3840 * Second).
Proof.
  split; [apply timeout_opt_total|].
  split; [|split; [vm_compute; reflexivity|split; [vm_compute; reflexivity|apply timeout_capped]]].
  destruct (Z_le_gt_dec 8 n) as [H8|H8].
  - rewrite timeout_capped by exact H8. rewrite Z.min_r by lia.
    vm_compute. reflexivity.
  - rewrite Z.min_l by lia.
    assert (H : n = 0 \/ n = 1 \/ n = 2 \/ n = 3 \/ n = 4 \/ n = 5 \/ n = 6 \/ n = 7) by lia.
    intuition (subst n; vm_compute; reflexivity).
Qed.

Lemma timeout_backoff_witness :
  0 <= 20 /\ timeout 20 = 15 * Second * 2 ^ Z.min 20 8 /\ timeout 20 = 3840 * Second.
Proof.
  split; [lia|].
  destruct (timeout_backoff 20 ltac:(lia)) as (_ & Hpow & _ & _ & Hcap).
  split; [exact Hpow | apply Hcap; lia].
Defined.

(** A counter below zero (which the client never holds) leaves the first
    deadline. *)
Lemma timeout_nonpositive (n : Z) : n <= 0 -> timeout n = 15 * Second.
Proof.
  intros Hn. unfold timeout, timeout_opt.
  destruct (n >? 8) eqn:E8; [lia|].
  unfold timeout_loop. destruct (n >? 0) eqn:E0; [lia | reflexivity].
Qed.

(** ** The read loop and [request] *)

Import UdpTracker(client, contiguousTimeouts, connectionIdReceived, connectionId,
  socket, url, newClient, set_contiguousTimeouts, set_connectionIdReceived,
  set_connectionId, set_socket, SetReadDeadline, wrote, write, request_loop,
  request, readBody, connected, dialed, announce_options, to_tracker_Peer,
  append_Peer, Announce_peers, Announce_response, request_datagram, write_ok,
  listening, passed_over).

Lemma readBufferSize_firstn_short (p : list byte) (n : nat) :
  (n <= 8)%nat -> (length (firstn readBufferSize p) <= n)%nat -> firstn readBufferSize p = p.
Proof.
  intros Hn Hp. apply readBufferSize_firstn.
  rewrite length_firstn in Hp. unfold readBufferSize in Hp. lia.
Qed.

Opaque readBufferSize.

(** The header of a datagram that holds one. *)
Lemma binary_Read_header (buf : list byte) :
  (8 <= length buf)%nat ->
  binary_Read (A := ResponseHeader) buf
  = (skipn 8 buf,
     inl {| rh_Action := to_int32 (be_uint (firstn 4 buf));
            rh_TransactionId := to_int32 (be_uint (firstn 4 (skipn 4 buf))) |}).
Proof.
  intros H8. rewrite binary_Read_enough by (simpl; lia).
  simpl dataSize. unfold decode, Fixed_ResponseHeader.
  rewrite firstn_firstn. simpl Nat.min.
  rewrite skipn_firstn_comm. reflexivity.
Qed.

Lemma binary_Read_header_inv (buf body : list byte) (h : ResponseHeader) :
  binary_Read buf = (body, inl h) ->
  (8 <= length buf)%nat /\ body = skipn 8 buf
  /\ rh_TransactionId h = to_int32 (be_uint (firstn 4 (skipn 4 buf))).
Proof.
  intros H. destruct (Nat.ltb (length buf) 8) eqn:E.
  - apply Nat.ltb_lt in E. destruct buf as [|b buf].
    + rewrite binary_Read_empty in H by (simpl; lia). discriminate H.
    + rewrite binary_Read_short in H by (simpl in *; lia). discriminate H.
  - apply Nat.ltb_ge in E. rewrite binary_Read_header in H by exact E.
    inversion H; subst. auto.
Qed.

(** Whatever [binary.Read] answers for a header, it is one of three things. *)
Lemma binary_Read_header_cases (buf : list byte) :
  (buf = [] /\ binary_Read (A := ResponseHeader) buf = ([], inr EOF))
  \/ ((0 < length buf < 8)%nat
      /\ binary_Read (A := ResponseHeader) buf = ([], inr ErrUnexpectedEOF))
  \/ ((8 <= length buf)%nat
      /\ exists h, binary_Read (A := ResponseHeader) buf = (skipn 8 buf, inl h)).
Proof.
  destruct buf as [|b buf].
  - left. split; [reflexivity|]. apply binary_Read_empty. simpl. lia.
  - right. destruct (Nat.ltb (length (b :: buf)) 8) eqn:E.
    + apply Nat.ltb_lt in E. left. split; [simpl in *; lia|].
      apply binary_Read_short; simpl in *; lia.
    + apply Nat.ltb_ge in E. right. split; [exact E|].
      eexists. apply binary_Read_header. exact E.
Qed.

(** The three answers of [binary.Read] for the header of [payload], put
    into the hypothesis [H] about one round of the loop. *)
Ltac header_cases payload H :=
  let E := fresh "E" in
  destruct (binary_Read_header_cases (firstn readBufferSize payload))
    as [[_ E]|[[_ E]|[_ [?h E]]]];
  rewrite E in H.

(** The loop changes nothing of the client but the counter. *)
Lemma request_loop_frame (reads : list ReadResult) (tid : Z) :
  forall c c' b err,
    request_loop reads c tid = Returns (c', b, err) ->
    c' = set_contiguousTimeouts c (contiguousTimeouts c').
Proof.
  induction reads as [|r reads IH]; intros c c' b err H; simpl in H.
  - discriminate H.
  - destruct r as [payload|e].
    + header_cases payload H.
      * inversion H; subst. destruct c'; reflexivity.
      * eapply IH; exact H.
      * destruct (negb (rh_TransactionId h =? tid)).
        -- eapply IH; exact H.
        -- inversion H; subst. reflexivity.
    + destruct (is_timeout e); inversion H; subst.
      * reflexivity.
      * destruct c'; reflexivity.
Qed.

(** A read result that is passed over leaves the loop as it was. *)
Lemma request_loop_passes_over (tid : Z) (r : ReadResult) (rest : list ReadResult)
    (c : client) :
  passed_over tid r = true ->
  request_loop (r :: rest) c tid = request_loop rest c tid.
Proof.
  destruct r as [payload|e]; [|discriminate].
  unfold passed_over. cbn [request_loop].
  set (buf := firstn readBufferSize payload).
  destruct (length buf =? 0)%nat eqn:E0; [discriminate|].
  apply Nat.eqb_neq in E0.
  destruct (length buf <? 8)%nat eqn:E8.
  - apply Nat.ltb_lt in E8. intros _.
    rewrite binary_Read_short by (simpl; lia). reflexivity.
  - apply Nat.ltb_ge in E8. intros Ht.
    rewrite binary_Read_header by exact E8.
    cbn [rh_TransactionId]. rewrite Ht. reflexivity.
Qed.

(** [request] reaches the loop once the datagram is out. *)
Lemma request_sent (c : client) (action : Action) (args : Body) (options : list byte)
    (w : World) :
  write_ok c action args options w = true ->
  request c action args options w
  = request_loop (Reads w) (listening c action args options w)
      (newTransactionId (rand_Uint32 w)).
Proof.
  unfold write_ok, request, write, listening, request_datagram.
  destruct args as [|bs|e]; [| |discriminate].
  - destruct (socket c) as [s|] eqn:Es; [|discriminate].
    destruct (Write_result w) as [n [e|]]; [discriminate|].
    cbn [app]. intros Hn. rewrite Hn. reflexivity.
  - destruct (socket c) as [s|] eqn:Es; [|discriminate].
    destruct (Write_result w) as [n [e|]]; [discriminate|].
    rewrite app_assoc. intros Hn. rewrite Hn. reflexivity.
Qed.

Lemma request_passes_over (c : client) (action : Action) (args : Body)
    (options : list byte) (w : World) (noise rest : list ReadResult) :
  forallb (passed_over (newTransactionId (rand_Uint32 w))) noise = true ->
  request c action args options (with_Reads w (noise ++ rest))
  = request c action args options (with_Reads w rest).
Proof.
  induction noise as [|r noise IH]; intros Hn; [reflexivity|].
  simpl in Hn. apply andb_prop in Hn. destruct Hn as [Hr Hn].
  rewrite <- IH by exact Hn. unfold request.
  change (write c ?h args options (with_Reads w ((r :: noise) ++ rest)))
    with (write c h args options (with_Reads w (noise ++ rest))).
  destruct (write c _ args options (with_Reads w (noise ++ rest))) as [[c1 [e|]]| |];
    cbn [bind]; try reflexivity.
  destruct (socket c1); [|reflexivity].
  cbn [Reads with_Reads rand_Uint32] in *.
  rewrite <- app_comm_cons. apply request_loop_passes_over. exact Hr.
Qed.

(** [write] and [request] leave the receipt time of the connection id alone. *)
Lemma write_keeps_received (c c' : client) h args options w err :
  write c h args options w = Returns (c', err) ->
  connectionIdReceived c' = connectionIdReceived c
  /\ contiguousTimeouts c' = contiguousTimeouts c.
Proof.
  unfold write. destruct args; try discriminate;
    (destruct (socket c); [|discriminate]);
    (destruct (Write_result w) as [n [e|]]);
    try (destruct (negb _); [discriminate|]);
    intros H; inversion H; subst; split; reflexivity.
Qed.

Lemma request_keeps_received (c c' : client) action args options w b err :
  request c action args options w = Returns (c', b, err) ->
  connectionIdReceived c' = connectionIdReceived c.
Proof.
  unfold request.
  destruct (write c _ args options w) as [[c1 [e|]]| |] eqn:Ew;
    cbn [bind]; try discriminate.
  - intros H. inversion H; subst. eapply write_keeps_received; exact Ew.
  - apply write_keeps_received in Ew. destruct Ew as [Ew _].
    destruct (socket c1); [|discriminate].
    intros H. apply request_loop_frame in H. rewrite H. cbn. exact Ew.
Qed.

(** ** The connection id and its receipt time *)

(** The three ways [Connect] returns: at once when connected; with an error
    and the receipt time untouched; or after a handshake, stamped with the
    clock read after it. *)
Lemma Connect_cases (c c' : client) (w : World) (err : option error) :
  UdpTracker.Connect c w = Returns (c', err) ->
  (connected c (Now_connected w) = true /\ c' = c /\ err = None)
  \/ (connected c (Now_connected w) = false
      /\ ((exists e, err = Some e /\ connectionIdReceived c' = connectionIdReceived c)
          \/ (err = None /\ connectionIdReceived c' = Now_received w))).
Proof.
  unfold UdpTracker.Connect. destruct (connected c (Now_connected w)) eqn:Ec.
  - intros H. inversion H; subst. left. auto.
  - right. split; [reflexivity|]. revert H.
    set (c1 := set_connectionId c 4497486125440).
    assert (H1 : connectionIdReceived c1 = connectionIdReceived c) by reflexivity.
    destruct (match socket c1 with
              | Some _ => (c1, None)
              | None => match Dial_error w with
                        | Some e => (c1, Some e)
                        | None => (set_socket c1 (Some (dialed (Host (url c1)))), None)
                        end
              end) as [c2 err2] eqn:Ed.
    assert (H2 : connectionIdReceived c2 = connectionIdReceived c).
    { destruct (socket c1); [|destruct (Dial_error w)];
        inversion Ed; subst; exact H1. }
    destruct err2 as [e|].
    + intros H. inversion H; subst. left. eauto.
    + destruct (request c2 Connect nilBody [] w) as [[[c3 b] err3]| |] eqn:Er;
        cbn [bind]; try discriminate.
      apply request_keeps_received in Er.
      destruct err3 as [e|].
      * intros H. inversion H; subst. left. exists e. split; [reflexivity|].
        congruence.
      * destruct b as [b|]; [|discriminate].
        destruct (readBody (A := ConnectionResponse) b) as [r [res|e]].
        -- intros H. inversion H; subst. right. split; reflexivity.
        -- intros H. inversion H; subst. left. exists e. split; [reflexivity|].
           congruence.
Qed.

Lemma connected_zero (c : client) (t : Time) :
  IsZero (connectionIdReceived c) = true -> connected c t = false.
Proof. intros H. unfold connected. rewrite H. reflexivity. Qed.

Lemma connected_window (c : client) (t : Time) :
  IsZero (connectionIdReceived c) = false ->
  (connected c t = true <-> t < connectionIdReceived c + 60 * Second).
Proof.
  intros H. unfold connected, Before, Add, Minute. rewrite H. cbn [negb andb].
  apply Z.ltb_lt.
Qed.

(** C4. A connection id received at time T (the clock read after a
    successful handshake) makes the client connected at every later time t
    with t < T + 60 s and not connected from T + 60 s on; a new client has
    the zero receipt time, and a client with the zero receipt time is not
    connected at any time. *)
Theorem connection_id_validity (c c' : client) (w : World)
    (Hnow : IsZero (Now_received w) = false)
    (Hc : connected c (Now_connected w) = false)
    (Hok : UdpTracker.Connect c w = Returns (c', None)) :
  connectionIdReceived c' = Now_received w
  /\ (forall t, Now_received w <= t ->
        (connected c' t = true <-> t < Now_received w + 60 * Second))
  /\ (forall t, Now_received w + 60 * Second <= t -> connected c' t = false)
  /\ (forall u t, connectionIdReceived (newClient u) = zeroTime
                  /\ connected (newClient u) t = false)
  /\ (forall c0 t, IsZero (connectionIdReceived c0) = true -> connected c0 t = false).
Proof.
  assert (HT : connectionIdReceived c' = Now_received w).
  { apply Connect_cases in Hok.
    destruct Hok as [[Hc' _]|[_ [[e [He _]]|[_ HT]]]].
    - congruence.
    - discriminate He.
    - exact HT. }
  assert (Hz : IsZero (connectionIdReceived c') = false) by (rewrite HT; exact Hnow).
  split; [exact HT|]. split; [|split; [|split]].
  - intros t _. rewrite <- HT. apply connected_window. exact Hz.
  - intros t Ht. destruct (connected c' t) eqn:E; [|reflexivity].
    apply connected_window in E; [|exact Hz]. rewrite HT in E. lia.
  - intros u t. split; reflexivity.
  - intros c0 t. apply connected_zero.
Qed.

(** C10. When [Connect] returns an error, whatever the reason, the receipt
    time of the connection id is what it was before the call, so the client
    is connected at a time exactly when it was before; a client that never
    completed a handshake stays not connected. *)
Theorem Connect_failure_keeps_receipt_time (c c' : client) (w : World) (e : error)
    (Hfail : UdpTracker.Connect c w = Returns (c', Some e)) :
  connectionIdReceived c' = connectionIdReceived c
  /\ (forall t, connected c' t = connected c t)
  /\ (IsZero (connectionIdReceived c) = true -> forall t, connected c' t = false).
Proof.
  assert (HT : connectionIdReceived c' = connectionIdReceived c).
  { apply Connect_cases in Hfail.
    destruct Hfail as [[_ [_ He]]|[_ [[e' [_ HT]]|[He _]]]].
    - discriminate He.
    - exact HT.
    - discriminate He. }
  split; [exact HT|]. split.
  - intros t. unfold connected. rewrite HT. reflexivity.
  - intros Hz t. apply connected_zero. rewrite HT. exact Hz.
Qed.

(** ** What ends a call of [request] *)

Section OneCall.

Variables (c : client) (action : Action) (args : Body) (options : list byte).
Variable w : World.

(** With the datagram out, [request] on given reads is the loop on them. *)
Lemma request_listening (reads : list ReadResult) :
  write_ok c action args options w = true ->
  request c action args options (with_Reads w reads)
  = request_loop reads (listening c action args options w)
      (newTransactionId (rand_Uint32 w)).
Proof.
  intros Hw. apply (request_sent c action args options (with_Reads w reads)). exact Hw.
Qed.

Lemma listening_counter :
  contiguousTimeouts (listening c action args options w) = contiguousTimeouts c.
Proof. unfold listening. destruct (socket c); reflexivity. Qed.

(** A timed-out read ends the call and counts. *)
Lemma request_timeout (e : error) (rest : list ReadResult) :
  write_ok c action args options w = true ->
  is_timeout e = true ->
  request c action args options (with_Reads w (ReadError e :: rest))
  = Returns (set_contiguousTimeouts (listening c action args options w)
               (to_int (contiguousTimeouts c + 1)), None, Some e).
Proof.
  intros Hw He. rewrite request_listening by exact Hw.
  cbn [request_loop]. rewrite He, listening_counter. reflexivity.
Qed.

(** Any other read error ends the call and does not count. *)
Lemma request_read_error (e : error) (rest : list ReadResult) :
  write_ok c action args options w = true ->
  is_timeout e = false ->
  request c action args options (with_Reads w (ReadError e :: rest))
  = Returns ((listening c action args options w), None, Some e).
Proof.
  intros Hw He. rewrite request_listening by exact Hw.
  cbn [request_loop]. rewrite He. reflexivity.
Qed.

(** A datagram with this call's transaction id ends the call, whatever its
    action; the [Error] action turns the rest of the datagram into the text
    of the error. *)
Lemma request_matched (p body : list byte) (h : ResponseHeader) (rest : list ReadResult) :
  write_ok c action args options w = true ->
  binary_Read (firstn readBufferSize p) = (body, inl h) ->
  rh_TransactionId h = (newTransactionId (rand_Uint32 w)) ->
  request c action args options (with_Reads w (Datagram p :: rest))
  = Returns (set_contiguousTimeouts (listening c action args options w) 0, Some body,
             if rh_Action h =? Error
             then Some (errors_New (string_of_list_byte body)) else None).
Proof.
  intros Hw Hp Ht. rewrite request_listening by exact Hw.
  cbn [request_loop]. rewrite Hp, Ht, Z.eqb_refl. reflexivity.
Qed.

(** A datagram with a whole header and another transaction id is dropped. *)
Lemma request_other_transaction (p body : list byte) (h : ResponseHeader)
    (rest : list ReadResult) :
  binary_Read (firstn readBufferSize p) = (body, inl h) ->
  rh_TransactionId h <> (newTransactionId (rand_Uint32 w)) ->
  request c action args options (with_Reads w (Datagram p :: rest))
  = request c action args options (with_Reads w rest).
Proof.
  intros Hp Ht.
  apply (request_passes_over c action args options w [Datagram p] rest).
  cbn [forallb]. rewrite andb_true_r. unfold passed_over.
  apply binary_Read_header_inv in Hp. destruct Hp as (H8 & _ & Hh).
  destruct (length (firstn readBufferSize p) =? 0)%nat eqn:E0;
    [apply Nat.eqb_eq in E0; lia|].
  destruct (length (firstn readBufferSize p) <? 8)%nat eqn:E8;
    [apply Nat.ltb_lt in E8; lia|].
  apply negb_true_iff, Z.eqb_neq. intros E. apply Ht. rewrite Hh. exact E.
Qed.

(** A datagram of one to seven bytes is dropped. *)
Lemma request_short_datagram (p : list byte) (rest : list ReadResult) :
  (0 < length p < 8)%nat ->
  request c action args options (with_Reads w (Datagram p :: rest))
  = request c action args options (with_Reads w rest).
Proof.
  intros Hp.
  apply (request_passes_over c action args options w [Datagram p] rest).
  cbn [forallb]. rewrite andb_true_r. unfold passed_over.
  rewrite readBufferSize_firstn by lia.
  destruct (length p =? 0)%nat eqn:E0; [apply Nat.eqb_eq in E0; lia|].
  destruct (length p <? 8)%nat eqn:E8; [reflexivity|apply Nat.ltb_ge in E8; lia].
Qed.

(** A datagram of no bytes ends the call with [io.EOF]. *)
Lemma request_empty_datagram (rest : list ReadResult) :
  write_ok c action args options w = true ->
  request c action args options (with_Reads w (Datagram [] :: rest))
  = Returns ((listening c action args options w), None, Some EOF).
Proof.
  intros Hw. rewrite request_listening by exact Hw.
  cbn [request_loop]. rewrite firstn_nil.
  rewrite binary_Read_empty by (simpl; lia). reflexivity.
Qed.

End OneCall.

(** How a call of [request] that returns leaves the counter: at zero with a
    response body; one up with the error of a timed-out read; or as it was. *)
Lemma request_loop_counter (reads : list ReadResult) (tid : Z) :
  forall c c' b err,
    request_loop reads c tid = Returns (c', b, err) ->
    (b <> None /\ contiguousTimeouts c' = 0)
    \/ (b = None
        /\ exists e, err = Some e /\ is_timeout e = true /\ In (ReadError e) reads
                     /\ contiguousTimeouts c' = to_int (contiguousTimeouts c + 1))
    \/ (b = None /\ err <> None /\ contiguousTimeouts c' = contiguousTimeouts c).
Proof.
  induction reads as [|r reads IH]; intros c c' b err H; cbn [request_loop] in H.
  - discriminate H.
  - assert (Hin : forall e, In (ReadError e) reads -> In (ReadError e) (r :: reads))
      by (intros e He; right; exact He).
    assert (Hrec : request_loop reads c tid = Returns (c', b, err) ->
      (b <> None /\ contiguousTimeouts c' = 0)
      \/ (b = None
          /\ exists e, err = Some e /\ is_timeout e = true /\ In (ReadError e) (r :: reads)
                       /\ contiguousTimeouts c' = to_int (contiguousTimeouts c + 1))
      \/ (b = None /\ err <> None /\ contiguousTimeouts c' = contiguousTimeouts c)).
    { intros H'. apply IH in H'.
      destruct H' as [H'|[[Hb [e (He & Ht & Hi & Hc)]]|H']]; auto.
      right. left. split; [exact Hb|]. exists e. auto. }
    destruct r as [payload|e].
    + header_cases payload H.
      * inversion H; subst. right. right. repeat split. discriminate.
      * apply Hrec. exact H.
      * destruct (negb (rh_TransactionId h =? tid)).
        -- apply Hrec. exact H.
        -- inversion H; subst. left. split; [discriminate|reflexivity].
    + destruct (is_timeout e) eqn:Et; inversion H; subst.
      * right. left. split; [reflexivity|]. exists e.
        repeat split; auto. left. reflexivity.
      * right. right. repeat split. discriminate.
Qed.

Lemma request_counter (c c' : client) action args options w b err :
  request c action args options w = Returns (c', b, err) ->
  (b <> None /\ contiguousTimeouts c' = 0)
  \/ (b = None
      /\ exists e, err = Some e /\ is_timeout e = true /\ In (ReadError e) (Reads w)
                   /\ contiguousTimeouts c' = to_int (contiguousTimeouts c + 1))
  \/ (b = None /\ err <> None /\ contiguousTimeouts c' = contiguousTimeouts c).
Proof.
  unfold request.
  destruct (write c _ args options w) as [[c1 [e|]]| |] eqn:Ew;
    cbn [bind]; try discriminate.
  - intros H. inversion H; subst. right. right.
    apply write_keeps_received in Ew. destruct Ew as [_ Ew].
    repeat split; [discriminate|exact Ew].
  - apply write_keeps_received in Ew. destruct Ew as [_ Ew].
    destruct (socket c1); [|discriminate].
    intros H. apply request_loop_counter in H.
    cbn [contiguousTimeouts set_socket] in H. rewrite Ew in H. exact H.
Qed.

(** C2. In a call of [request] whose datagram went out, after reads that are
    passed over: a read that fails with a timeout ends the call with the
    counter one up (exactly one up below the largest [int]); a read that
    fails otherwise ends it with the counter as it was; a datagram carrying
    the call's transaction id ends it with the counter at zero, whatever the
    counter was.  And whenever a call returns, the counter is at zero with a
    response body, or one up with the error of a timed-out read of that call,
    or as it was. *)
Theorem contiguous_timeouts_discipline (c : client) (action : Action) (args : Body)
    (options : list byte) (w : World) (noise rest : list ReadResult)
    (Hw : write_ok c action args options w = true)
    (Hnoise : forallb (passed_over (newTransactionId (rand_Uint32 w))) noise = true) :
  (forall e, is_timeout e = true ->
     request c action args options (with_Reads w (noise ++ ReadError e :: rest))
     = Returns (set_contiguousTimeouts (listening c action args options w)
                  (to_int (contiguousTimeouts c + 1)), None, Some e))
  /\ (- 2 ^ 63 <= contiguousTimeouts c < MaxInt ->
       to_int (contiguousTimeouts c + 1) = contiguousTimeouts c + 1)
  /\ (forall e, is_timeout e = false ->
       request c action args options (with_Reads w (noise ++ ReadError e :: rest))
       = Returns (listening c action args options w, None, Some e)
       /\ contiguousTimeouts (listening c action args options w) = contiguousTimeouts c)
  /\ (forall p body h,
       binary_Read (firstn readBufferSize p) = (body, inl h) ->
       rh_TransactionId h = newTransactionId (rand_Uint32 w) ->
       exists err,
         request c action args options (with_Reads w (noise ++ Datagram p :: rest))
         = Returns (set_contiguousTimeouts (listening c action args options w) 0,
                    Some body, err))
  /\ (forall w' c' b err,
       request c action args options w' = Returns (c', b, err) ->
       (b <> None /\ contiguousTimeouts c' = 0)
       \/ (b = None
           /\ exists e, err = Some e /\ is_timeout e = true /\ In (ReadError e) (Reads w')
                        /\ contiguousTimeouts c' = to_int (contiguousTimeouts c + 1))
       \/ (b = None /\ err <> None /\ contiguousTimeouts c' = contiguousTimeouts c)).
Proof.
  split; [|split; [|split; [|split]]].
  - intros e He. rewrite request_passes_over by exact Hnoise.
    apply request_timeout; assumption.
  - intros Hn. apply to_int_id. unfold MaxInt in Hn. lia.
  - intros e He. split; [|apply listening_counter].
    rewrite request_passes_over by exact Hnoise.
    apply request_read_error; assumption.
  - intros p body h Hp Ht.
    exists (if rh_Action h =? Error
            then Some (errors_New (string_of_list_byte body)) else None).
    rewrite request_passes_over by exact Hnoise.
    apply request_matched; assumption.
  - intros w' c' b err. apply request_counter.
Qed.

(** The socket keeps the deadline set before the first read, whatever was
    read and dropped in between. *)
Lemma request_deadline (c c' : client) action args options w b err :
  write_ok c action args options w = true ->
  request c action args options w = Returns (c', b, err) ->
  exists s', socket c' = Some s'
    /\ ReadDeadline s' = Add (Now_deadline w) (timeout (contiguousTimeouts c)).
Proof.
  intros Hw H. rewrite request_sent in H by exact Hw.
  apply request_loop_frame in H. rewrite H.
  unfold write_ok in Hw. unfold listening.
  destruct (socket c) as [s|].
  - eexists. split; reflexivity.
  - destruct args; discriminate Hw.
Qed.

(** ** The read loop of the earlier revision *)

Lemma Earlier_request_loop_drops (c : Earlier.client) (action tid : Z)
    (p body : list byte) (h : ResponseHeader) (rest : list ReadResult) :
  binary_Read (firstn readBufferSize p) = (body, inl h) ->
  rh_Action h <> action \/ rh_TransactionId h <> tid ->
  Earlier.request_loop (Datagram p :: rest) c action tid
  = Earlier.request_loop rest c action tid.
Proof.
  intros Hp Hne. cbn [Earlier.request_loop]. rewrite Hp.
  destruct (rh_Action h =? action) eqn:Ea; [|reflexivity].
  destruct (rh_TransactionId h =? tid) eqn:Et; [|reflexivity].
  apply Z.eqb_eq in Ea, Et. tauto.
Qed.

Lemma Earlier_request_loop_accepts (c : Earlier.client) (action tid : Z)
    (p body : list byte) (h : ResponseHeader) (rest : list ReadResult) :
  binary_Read (firstn readBufferSize p) = (body, inl h) ->
  rh_Action h = action -> rh_TransactionId h = tid ->
  Earlier.request_loop (Datagram p :: rest) c action tid
  = Returns (Earlier.set_contiguousTimeouts c 0, body, None).
Proof.
  intros Hp Ha Ht. cbn [Earlier.request_loop]. rewrite Hp, Ha, Ht, !Z.eqb_refl.
  reflexivity.
Qed.

(** The earlier loop treats the counter as the later one does. *)
Lemma Earlier_request_loop_counter (reads : list ReadResult) (action tid : Z) :
  forall (c c' : Earlier.client) b err,
    Earlier.request_loop reads c action tid = Returns (c', b, err) ->
    (err = None /\ Earlier.contiguousTimeouts c' = 0)
    \/ (exists e, err = Some e /\ is_timeout e = true /\ In (ReadError e) reads
                  /\ Earlier.contiguousTimeouts c'
                     = to_int (Earlier.contiguousTimeouts c + 1))
    \/ (err <> None /\ Earlier.contiguousTimeouts c' = Earlier.contiguousTimeouts c).
Proof.
  induction reads as [|r reads IH]; intros c c' b err H; cbn [Earlier.request_loop] in H.
  - discriminate H.
  - assert (Hrec : Earlier.request_loop reads c action tid = Returns (c', b, err) ->
      (err = None /\ Earlier.contiguousTimeouts c' = 0)
      \/ (exists e, err = Some e /\ is_timeout e = true /\ In (ReadError e) (r :: reads)
                    /\ Earlier.contiguousTimeouts c'
                       = to_int (Earlier.contiguousTimeouts c + 1))
      \/ (err <> None /\ Earlier.contiguousTimeouts c' = Earlier.contiguousTimeouts c)).
    { intros H'. apply IH in H'.
      destruct H' as [H'|[[e (He & Ht & Hi & Hc)]|H']]; auto.
      right. left. exists e. repeat split; auto. right. exact Hi. }
    destruct r as [payload|e].
    + header_cases payload H.
      * inversion H; subst. right. right. split; [discriminate|reflexivity].
      * apply Hrec. exact H.
      * destruct (negb (rh_Action h =? action)); [apply Hrec; exact H|].
        destruct (negb (rh_TransactionId h =? tid)); [apply Hrec; exact H|].
        inversion H; subst. left. split; reflexivity.
    + destruct (is_timeout e) eqn:Et; inversion H; subst.
      * right. left. exists e. repeat split; auto. left. reflexivity.
      * right. right. split; [discriminate|reflexivity].
Qed.

(** The earlier handshake hands the nil body to [binary.Write] and does not
    come back: [connect] returns only when the client is connected already,
    and then changes nothing. *)
Lemma Earlier_connect_cases (c : Earlier.client) (w : World) :
  (Earlier.connect c w = Returns (c, None)
   /\ IsZero (Earlier.connectionIdReceived c) = false
   /\ Now_connected w < Earlier.connectionIdReceived c + 60 * Second)
  \/ Earlier.connect c w = Panics "binary.Write: invalid type".
Proof.
  unfold Earlier.connect.
  destruct (IsZero (Earlier.connectionIdReceived c)) eqn:Ez; cbn [negb andb].
  - right. reflexivity.
  - destruct (Before (Now_connected w) (Add (Earlier.connectionIdReceived c) Minute)) eqn:Eb.
    + left. repeat split. unfold Before, Add, Minute in Eb. apply Z.ltb_lt in Eb. exact Eb.
    + right. reflexivity.
Qed.

(** The earlier [Announce] hands a slice of no peers to [readBody], which
    then reads no peer: whatever follows the announce header is left. *)
Lemma Earlier_Announce_response_no_peers (b : list byte) :
  (12 <= length b)%nat ->
  Earlier.Announce_response b
  = ({| tracker.Interval := to_int32 (be_uint (firstn 4 b));
        tracker.Leechers := to_int32 (be_uint (firstn 4 (skipn 4 b)));
        tracker.Seeders := to_int32 (be_uint (firstn 4 (skipn 8 b)));
        tracker.Peers := [] |}, None).
Proof.
  intros Hlen. unfold Earlier.Announce_response, Earlier.readBody2.
  rewrite (binary_Read_enough (F := Fixed_AnnounceResponseHeader)) by (simpl; lia).
  cbn [dataSize Fixed_AnnounceResponseHeader decode Interval Leechers Seeders].
  unfold binary_Read. cbn [dataSize Fixed_Peers Nat.mul ReadFull decode decode_Peers map].
  rewrite !skipn_firstn_comm, !firstn_firstn. cbn [Nat.min Nat.sub].
  reflexivity.
Qed.

(** ** Correlation *)

(** C1, as the code has it.  [request] correlates by transaction id alone: a
    datagram with a whole header and another transaction id is dropped and
    the loop goes on; one with the call's transaction id is taken whatever
    its action, its body returned (with the error the [Error] action makes
    of it).  The earlier revision drops a datagram unless both the action and
    the transaction id are those of the call, and takes it when both are. *)
Theorem correlation_by_transaction_id (c : client) (action : Action) (args : Body)
    (options : list byte) (w : World) (p body : list byte) (h : ResponseHeader)
    (rest : list ReadResult)
    (Hp : binary_Read (firstn readBufferSize p) = (body, inl h)) :
  (rh_TransactionId h <> newTransactionId (rand_Uint32 w) ->
     request c action args options (with_Reads w (Datagram p :: rest))
     = request c action args options (with_Reads w rest))
  /\ (write_ok c action args options w = true ->
      rh_TransactionId h = newTransactionId (rand_Uint32 w) ->
      request c action args options (with_Reads w (Datagram p :: rest))
      = Returns (set_contiguousTimeouts (listening c action args options w) 0,
                 Some body,
                 if rh_Action h =? Error
                 then Some (errors_New (string_of_list_byte body)) else None))
  /\ (forall (c0 : Earlier.client) (tid : Z),
        (rh_Action h <> action \/ rh_TransactionId h <> tid ->
           Earlier.request_loop (Datagram p :: rest) c0 action tid
           = Earlier.request_loop rest c0 action tid)
        /\ (rh_Action h = action -> rh_TransactionId h = tid ->
            Earlier.request_loop (Datagram p :: rest) c0 action tid
            = Returns (Earlier.set_contiguousTimeouts c0 0, body, None))).
Proof.
  split; [|split].
  - intros Ht. eapply request_other_transaction; eassumption.
  - intros Hw Ht. apply request_matched; assumption.
  - intros c0 tid. split.
    + intros Hne. eapply Earlier_request_loop_drops; eassumption.
    + intros Ha Ht. apply (Earlier_request_loop_accepts c0 action tid p body h rest Hp Ha Ht).
Qed.

(** C7. A datagram that carries the call's transaction id and the [Error]
    action ends [request], whatever action was asked for, with an error whose
    text is the rest of the datagram, byte for byte; [Announce] hands that
    error on with an empty response and decodes nothing. *)
Theorem tracker_error_reported (c : client) (action : Action) (args : Body)
    (options : list byte) (w : World) (noise : list ReadResult) (p body : list byte)
    (h : ResponseHeader) (rest : list ReadResult)
    (Hw : write_ok c action args options w = true)
    (Hnoise : forallb (passed_over (newTransactionId (rand_Uint32 w))) noise = true)
    (Hp : binary_Read (firstn readBufferSize p) = (body, inl h))
    (Ht : rh_TransactionId h = newTransactionId (rand_Uint32 w))
    (He : rh_Action h = Error) :
  request c action args options (with_Reads w (noise ++ Datagram p :: rest))
  = Returns (set_contiguousTimeouts (listening c action args options w) 0,
             Some body, Some (errors_New (string_of_list_byte body)))
  /\ list_byte_of_string (string_of_list_byte body) = body
  /\ (action = Announce ->
      options = announce_options (RequestURI (url c)) ->
      connected c (Now_connected w) = true ->
      UdpTracker.Announce c args (with_Reads w (noise ++ Datagram p :: rest))
      = Returns (set_contiguousTimeouts (listening c action args options w) 0,
                 tracker.zeroAnnounceResponse,
                 Some (errors_New (string_of_list_byte body)))).
Proof.
  assert (Hr : request c action args options (with_Reads w (noise ++ Datagram p :: rest))
               = Returns (set_contiguousTimeouts (listening c action args options w) 0,
                          Some body, Some (errors_New (string_of_list_byte body)))).
  { rewrite request_passes_over by exact Hnoise.
    rewrite (request_matched c action args options w p body h rest Hw Hp Ht).
    rewrite He. reflexivity. }
  split; [exact Hr|]. split; [apply list_byte_of_string_of_list_byte|].
  intros Ha Ho Hc. subst action options. unfold UdpTracker.Announce.
  cbn [Now_connected with_Reads]. rewrite Hc. cbn [negb].
  rewrite Hr. reflexivity.
Qed.

(** C8, on the code.  A datagram of one to seven bytes is dropped and the
    loop goes on under the deadline set before the first read.  A datagram
    of no bytes is not: [binary.Read] answers [io.EOF] for it, not
    [io.ErrUnexpectedEOF], and the call ends with that error. *)
Theorem short_datagrams (c : client) (action : Action) (args : Body)
    (options : list byte) (w : World) (rest : list ReadResult)
    (Hw : write_ok c action args options w = true) :
  (forall p, (0 < length p < 8)%nat ->
     request c action args options (with_Reads w (Datagram p :: rest))
     = request c action args options (with_Reads w rest))
  /\ (forall reads c' b err,
       request c action args options (with_Reads w reads) = Returns (c', b, err) ->
       exists s', socket c' = Some s'
         /\ ReadDeadline s' = Add (Now_deadline w) (timeout (contiguousTimeouts c)))
  /\ request c action args options (with_Reads w (Datagram [] :: rest))
     = Returns (listening c action args options w, None, Some EOF).
Proof.
  split; [|split].
  - intros p Hp. apply request_short_datagram. exact Hp.
  - intros reads c' b err H.
    apply (request_deadline c c' action args options (with_Reads w reads) b err Hw H).
  - apply request_empty_datagram. exact Hw.
Qed.

(** ** The announce response *)

Lemma append_Peers (ps : list Peer) :
  forall res,
    tracker.Peers (fold_left append_Peer ps res)
    = tracker.Peers res ++ map to_tracker_Peer ps
    /\ tracker.Interval (fold_left append_Peer ps res) = tracker.Interval res
    /\ tracker.Leechers (fold_left append_Peer ps res) = tracker.Leechers res
    /\ tracker.Seeders (fold_left append_Peer ps res) = tracker.Seeders res.
Proof.
  induction ps as [|p ps IH]; intros res; cbn [fold_left map].
  - rewrite app_nil_r. auto.
  - destruct (IH (append_Peer res p)) as (HP & HI & HL & HS).
    rewrite HP, HI, HL, HS. cbn. rewrite <- app_assoc. auto.
Qed.

(** The peer loop on [6 * N + r] bytes, [r < 6]: [N] peers are appended, and
    the loop ends without an error when [r = 0] and with
    [io.ErrUnexpectedEOF] otherwise.  [N + 1] rounds are enough. *)
Lemma Announce_peers_run (N : nat) :
  forall (b : Reader) (res : tracker.AnnounceResponse) (fuel r : nat),
    length b = (6 * N + r)%nat -> (r < 6)%nat -> (N < fuel)%nat ->
    Announce_peers fuel b res
    = Returns (fold_left append_Peer (decode_Peers N b) res,
               if (r =? 0)%nat then None else Some ErrUnexpectedEOF).
Proof.
  induction N as [|N IH]; intros b res fuel r Hlen Hr Hfuel;
    (destruct fuel as [|fuel]; [lia|]); cbn [Announce_peers].
  - destruct r as [|r].
    + destruct b; [|discriminate Hlen].
      rewrite binary_Read_empty by (simpl; lia). reflexivity.
    + rewrite binary_Read_short by (simpl; lia). reflexivity.
  - rewrite binary_Read_enough by (simpl; lia).
    cbn [dataSize Fixed_Peer].
    rewrite (IH (skipn 6 b) _ fuel r); [reflexivity| |exact Hr|lia].
    rewrite length_skipn. lia.
Qed.

Lemma length_decode_Peers (N : nat) : forall bs, length (decode_Peers N bs) = N.
Proof.
  induction N as [|N IH]; intros bs; cbn [decode_Peers length]; [reflexivity|].
  rewrite IH. reflexivity.
Qed.

Lemma nth_decode_Peers (N : nat) :
  forall bs i, (i < N)%nat ->
    nth_error (decode_Peers N bs) i
    = Some {| IP := firstn 4 (skipn (6 * i) bs);
              Port := be_uint (firstn 2 (skipn (6 * i + 4) bs)) |}.
Proof.
  induction N as [|N IH]; intros bs i Hi; [lia|].
  cbn [decode_Peers]. destruct i as [|i]; cbn [nth_error].
  - cbn [decode Fixed_Peer]. rewrite firstn_firstn, skipn_firstn_comm.
    reflexivity.
  - rewrite IH by lia. rewrite !skipn_skipn.
    replace (6 * i + 6)%nat with (6 * S i)%nat by lia.
    replace (6 * i + 4 + 6)%nat with (6 * S i + 4)%nat by lia.
    reflexivity.
Qed.

(** What [Announce] makes of a body of [12 + 6 * N + r] bytes, [r < 6]. *)
Lemma Announce_response_run (N r : nat) (body : list byte) :
  length body = (12 + 6 * N + r)%nat -> (r < 6)%nat ->
  Announce_response body
  = Returns (fold_left append_Peer (decode_Peers N (skipn 12 body))
               {| tracker.Interval := to_int32 (be_uint (firstn 4 body));
                  tracker.Leechers := to_int32 (be_uint (firstn 4 (skipn 4 body)));
                  tracker.Seeders := to_int32 (be_uint (firstn 4 (skipn 8 body)));
                  tracker.Peers := [] |},
             if (r =? 0)%nat then None else Some ErrUnexpectedEOF).
Proof.
  intros Hlen Hr. unfold Announce_response, readBody.
  rewrite binary_Read_enough by (simpl; lia).
  cbn [dataSize Fixed_AnnounceResponseHeader decode Interval Leechers Seeders].
  rewrite (Announce_peers_run N (skipn 12 body) _ _ r);
    [| rewrite length_skipn; lia | exact Hr | rewrite length_skipn; lia].
  rewrite !skipn_firstn_comm, !firstn_firstn. cbn [Nat.min Nat.sub].
  reflexivity.
Qed.

(** A body too short for the announce header: the error is wrapped. *)
Lemma Announce_response_short (body : list byte) :
  (length body < 12)%nat ->
  Announce_response body
  = Returns (tracker.zeroAnnounceResponse,
             Some (errors_New "error parsing announce response: unexpected EOF")).
Proof.
  intros Hlen. unfold Announce_response, readBody.
  destruct body as [|b body].
  - rewrite binary_Read_empty by (simpl; lia). reflexivity.
  - rewrite binary_Read_short by (simpl in *; lia). reflexivity.
Qed.

(** [Announce_response] always returns: the fuel of the peer loop is enough. *)
Lemma Announce_response_total (body : list byte) :
  exists res err, Announce_response body = Returns (res, err).
Proof.
  destruct (Nat.ltb (length body) 12) eqn:E.
  - apply Nat.ltb_lt in E. rewrite Announce_response_short by exact E. eauto.
  - apply Nat.ltb_ge in E.
    rewrite (Announce_response_run ((length body - 12) / 6) ((length body - 12) mod 6)).
    + eauto.
    + pose proof (Nat.div_mod_eq (length body - 12) 6). lia.
    + apply Nat.mod_upper_bound. lia.
Qed.

(** C5. A body of exactly [12 + 6 * N] bytes decodes without an error to the
    three header fields and exactly [N] peers, the [i]-th made of the four
    address bytes and the two port bytes of the [i]-th record, in the order
    of the datagram; with [N = 0] the peer list is empty and there is still
    no error. *)
Theorem announce_response_peers (N : nat) (body : list byte)
    (Hlen : length body = (12 + 6 * N)%nat) :
  exists res,
    Announce_response body = Returns (res, None)
    /\ tracker.Interval res = to_int32 (be_uint (firstn 4 body))
    /\ tracker.Leechers res = to_int32 (be_uint (firstn 4 (skipn 4 body)))
    /\ tracker.Seeders res = to_int32 (be_uint (firstn 4 (skipn 8 body)))
    /\ length (tracker.Peers res) = N
    /\ (forall i, (i < N)%nat ->
          nth_error (tracker.Peers res) i
          = Some {| tracker.IP := firstn 4 (skipn (12 + 6 * i) body);
                    tracker.Port := be_uint (firstn 2 (skipn (12 + 6 * i + 4) body)) |})
    /\ (N = 0%nat -> tracker.Peers res = []).
Proof.
  eexists. split.
  - rewrite (Announce_response_run N 0 body) by lia. reflexivity.
  - match goal with
    | |- context [fold_left append_Peer ?ps ?r] =>
        destruct (append_Peers ps r) as (HP & HI & HL & HS)
    end.
    rewrite HP, HI, HL, HS. cbn [tracker.Peers tracker.Interval tracker.Leechers
      tracker.Seeders app].
    repeat split.
    + rewrite length_map. apply length_decode_Peers.
    + intros i Hi. rewrite nth_error_map, nth_decode_Peers by exact Hi.
      rewrite !skipn_skipn. cbn [option_map to_tracker_Peer IP Port].
      replace (6 * i + 12)%nat with (12 + 6 * i)%nat by lia.
      replace (6 * i + 4 + 12)%nat with (12 + 6 * i + 4)%nat by lia.
      reflexivity.
    + intros HN. subst N. reflexivity.
Qed.

(** C6, on the code.  A body of [12 + 6 * N + r] bytes with [0 < r < 6] ends
    the peer loop with [io.ErrUnexpectedEOF] as [binary.Read] gave it and the
    [N] peers read so far in the response.  That error is not the wrapped
    one, which [Announce] makes for a body too short for the announce
    header. *)
Theorem announce_response_truncated (N r : nat) (body : list byte)
    (Hlen : length body = (12 + 6 * N + r)%nat) (Hr : (0 < r < 6)%nat) :
  (exists res,
     Announce_response body = Returns (res, Some ErrUnexpectedEOF)
     /\ length (tracker.Peers res) = N)
  /\ ErrUnexpectedEOF <> fmt_Errorf "error parsing announce response: " ErrUnexpectedEOF
  /\ (forall short, (length short < 12)%nat ->
        Announce_response short
        = Returns (tracker.zeroAnnounceResponse,
                   Some (fmt_Errorf "error parsing announce response: " ErrUnexpectedEOF))).
Proof.
  split; [|split].
  - eexists. split.
    + rewrite (Announce_response_run N r body) by lia.
      destruct r as [|r]; [lia|]. reflexivity.
    + match goal with
      | |- context [fold_left append_Peer ?ps ?r] =>
          destruct (append_Peers ps r) as (HP & _)
      end.
      rewrite HP. cbn [tracker.Peers app].
      rewrite length_map. apply length_decode_Peers.
  - discriminate.
  - intros short Hs. apply Announce_response_short. exact Hs.
Qed.

(** ** The trailer *)

(** [Announce] returns with the client [request] left. *)
Lemma Announce_client (c c' : client) (req : Body) (w : World) res err :
  connected c (Now_connected w) = true ->
  UdpTracker.Announce c req w = Returns (c', res, err) ->
  exists b err1,
    request c Announce req (announce_options (RequestURI (url c))) w
    = Returns (c', b, err1).
Proof.
  intros Hc. unfold UdpTracker.Announce. rewrite Hc. cbn [negb].
  destruct (request c Announce req (announce_options (RequestURI (url c))) w)
    as [[[c1 b] err1]| |]; cbn [bind]; try discriminate.
  destruct err1 as [e|].
  - intros H. inversion H; subst. eauto.
  - destruct b as [b|]; [|discriminate].
    destruct (Announce_response b) as [[res1 err2]| |]; cbn [bind]; try discriminate.
    intros H. inversion H; subst. eauto.
Qed.


(** The datagram of a call is the last one handed to the socket. *)
Lemma request_written (c c' : client) action args options w b err :
  write_ok c action args options w = true ->
  request c action args options w = Returns (c', b, err) ->
  exists s s', socket c = Some s /\ socket c' = Some s'
    /\ Written s' = Written s ++ [request_datagram c action args options w].
Proof.
  intros Hw H. rewrite request_sent in H by exact Hw.
  apply request_loop_frame in H. rewrite H.
  unfold write_ok in Hw. unfold listening.
  destruct (socket c) as [s|].
  - exists s. eexists. repeat split.
  - destruct args; discriminate Hw.
Qed.

(** C9, as the code has it.  The trailer is the URL-data type byte, one
    length byte, and all the bytes of the request URI; it ends the datagram
    [Announce] sends.  The length byte is the length of the URI modulo 256,
    so for a URI of at most 255 bytes it is the number of path bytes in the
    trailer; nothing is cut off a longer one and nothing fails. *)
Theorem announce_trailer (c : client) (req : Body) (w : World) :
  announce_options (RequestURI (url c))
  = [to_byte optionTypeURLData;
     to_byte (Z.of_nat (length (list_byte_of_string (RequestURI (url c)))))]
    ++ list_byte_of_string (RequestURI (url c))
  /\ byte_val (to_byte optionTypeURLData) = 2
  /\ byte_val (to_byte (Z.of_nat (length (list_byte_of_string (RequestURI (url c))))))
     = Z.of_nat (length (list_byte_of_string (RequestURI (url c)))) mod 256
  /\ ((length (list_byte_of_string (RequestURI (url c))) <= 255)%nat ->
      announce_options (RequestURI (url c)) = truncated_trailer (RequestURI (url c))
      /\ byte_val (nth 1 (announce_options (RequestURI (url c))) "000"%byte)
         = Z.of_nat (length (list_byte_of_string (RequestURI (url c)))))
  /\ (connected c (Now_connected w) = true ->
      write_ok c Announce req (announce_options (RequestURI (url c))) w = true ->
      forall c' res err,
        UdpTracker.Announce c req w = Returns (c', res, err) ->
        exists s s',
          socket c = Some s /\ socket c' = Some s'
          /\ Written s'
             = Written s
               ++ [encode_RequestHeader
                     {| rq_ConnectionId := connectionId c;
                        rq_Action := Announce;
                        rq_TransactionId := newTransactionId (rand_Uint32 w) |}
                   ++ match req with Serializable bs => bs | _ => [] end
                   ++ announce_options (RequestURI (url c))]).
Proof.
  assert (Hopt : announce_options (RequestURI (url c))
    = [to_byte optionTypeURLData;
       to_byte (Z.of_nat (length (list_byte_of_string (RequestURI (url c)))))]
      ++ list_byte_of_string (RequestURI (url c))).
  { unfold announce_options. rewrite length_list_byte_of_string. reflexivity. }
  split; [exact Hopt|]. split; [reflexivity|]. split; [apply to_byte_val|]. split.
  - intros Hlen. split.
    + rewrite Hopt. unfold truncated_trailer.
      rewrite firstn_all2 by exact Hlen. reflexivity.
    + rewrite Hopt. cbn [app nth]. rewrite to_byte_val. apply Z.mod_small. lia.
  - intros Hc Hw c' res err H.
    apply Announce_client in H; [|exact Hc]. destruct H as (b & err1 & H).
    destruct (request_written _ _ _ _ _ _ _ _ Hw H) as (s & s' & Hs & Hs' & Hwr).
    exists s, s'. split; [exact Hs|]. split; [exact Hs'|].
    rewrite Hwr. reflexivity.
Qed.

(** ** Concrete runs *)

Lemma contiguous_timeouts_discipline_witness :
  write_ok sample_connected Announce (Serializable []) (announce_options "/announce")
    (sample_World 27 []) = true
  /\ forallb (passed_over (newTransactionId 0xCAFEF00D)) sample_noise = true
  /\ request sample_connected Announce (Serializable []) (announce_options "/announce")
       (with_Reads (sample_World 27 []) (sample_noise ++ [ReadError io_timeout]))
     = Returns (set_contiguousTimeouts
                  (listening sample_connected Announce (Serializable [])
                     (announce_options "/announce") (sample_World 27 []))
                  4, None, Some io_timeout)
  /\ request sample_connected Announce (Serializable []) (announce_options "/announce")
       (with_Reads (sample_World 27 []) (sample_noise ++ [ReadError connection_refused]))
     = Returns (listening sample_connected Announce (Serializable [])
                  (announce_options "/announce") (sample_World 27 []),
                None, Some connection_refused).
Proof.
  assert (Hw : write_ok sample_connected Announce (Serializable [])
                 (announce_options "/announce") (sample_World 27 []) = true)
    by (vm_compute; reflexivity).
  assert (Hn : forallb (passed_over (newTransactionId 0xCAFEF00D)) sample_noise = true)
    by (vm_compute; reflexivity).
  split; [exact Hw|]. split; [exact Hn|].
  destruct (contiguous_timeouts_discipline sample_connected Announce (Serializable [])
              (announce_options "/announce") (sample_World 27 []) sample_noise [] Hw Hn)
    as (Htimeout & _ & Hother & _).
  split.
  - exact (Htimeout io_timeout eq_refl).
  - exact (proj1 (Hother connection_refused eq_refl)).
Defined.

Lemma connection_id_validity_witness :
  exists c',
    UdpTracker.Connect sample_new (sample_World 16 [Datagram sample_connect_reply])
    = Returns (c', None)
    /\ connectionId c' = 0x1122334455667788
    /\ connectionIdReceived c' = 1001 * Second
    /\ (connected c' (1060 * Second) = true <-> 1060 * Second < 1001 * Second + 60 * Second)
    /\ connected c' (1061 * Second) = false.
Proof.
  destruct (UdpTracker.Connect sample_new (sample_World 16 [Datagram sample_connect_reply]))
    as [[c' [e|]]| |] eqn:E; try (vm_compute in E; discriminate E).
  exists c'. split; [reflexivity|].
  destruct (connection_id_validity sample_new c'
              (sample_World 16 [Datagram sample_connect_reply])
              ltac:(vm_compute; reflexivity) ltac:(vm_compute; reflexivity) E)
    as (HT & Hin & Hout & _).
  split; [vm_compute in E; inversion E; reflexivity|].
  split; [exact HT|]. split.
  - apply Hin. vm_compute. discriminate.
  - apply Hout. vm_compute. discriminate.
Defined.

Lemma Connect_failure_keeps_receipt_time_witness :
  exists c',
    UdpTracker.Connect sample_new (sample_World 16 (sample_noise ++ [ReadError io_timeout]))
    = Returns (c', Some io_timeout)
    /\ connectionIdReceived c' = zeroTime
    /\ contiguousTimeouts c' = 1
    /\ connected c' (1002 * Second) = false.
Proof.
  destruct (UdpTracker.Connect sample_new
              (sample_World 16 (sample_noise ++ [ReadError io_timeout])))
    as [[c' [e|]]| |] eqn:E; try (vm_compute in E; discriminate E).
  assert (He : e = io_timeout) by (vm_compute in E; inversion E; reflexivity).
  subst e. exists c'. split; [reflexivity|].
  destruct (Connect_failure_keeps_receipt_time sample_new c' _ io_timeout E)
    as (HT & _ & Hz).
  split; [exact HT|].
  split; [vm_compute in E; inversion E; reflexivity|].
  apply Hz. reflexivity.
Defined.

(** The other ways a handshake fails: no socket, a read error, a connect
    response too short for the connection id. *)
Example Connect_fails_to_dial :
  UdpTracker.Connect sample_new unreachable_World
  = Returns (set_connectionId sample_new 0x41727101980,
             Some (OpError false "dial udp: lookup tracker.example.org: no such host")).
Proof. vm_compute. reflexivity. Qed.

Example Connect_read_error :
  exists c',
    UdpTracker.Connect sample_new (sample_World 16 [ReadError connection_refused])
    = Returns (c', Some connection_refused)
    /\ connectionIdReceived c' = zeroTime /\ contiguousTimeouts c' = 0.
Proof. eexists. split; [vm_compute; reflexivity|]. split; reflexivity. Qed.

Example Connect_short_reply :
  exists c',
    UdpTracker.Connect sample_new
      (sample_World 16 [Datagram (response_datagram Connect sample_tid (be_put 4 1))])
    = Returns (c', Some ErrUnexpectedEOF)
    /\ connectionIdReceived c' = zeroTime.
Proof. eexists. split; [vm_compute; reflexivity|]. reflexivity. Qed.

(** A connect response with the call's transaction id, arriving in answer
    to an announce. *)
Lemma sample_connect_reply_header :
  binary_Read (firstn readBufferSize sample_connect_reply)
  = (be_put 8 0x1122334455667788, inl sample_connect_header).
Proof. vm_compute. reflexivity. Qed.

Lemma correlation_by_transaction_id_witness :
  binary_Read (firstn readBufferSize sample_connect_reply)
  = (be_put 8 0x1122334455667788, inl sample_connect_header)
  /\ request sample_connected Announce (Serializable []) sample_options
       (with_Reads (sample_World 27 []) [Datagram sample_connect_reply])
     = Returns (set_contiguousTimeouts
                  (listening sample_connected Announce (Serializable []) sample_options
                     (sample_World 27 [])) 0,
                Some (be_put 8 0x1122334455667788), None)
  /\ Earlier.request_loop [Datagram sample_connect_reply] Earlier.newClient Announce sample_tid
     = Earlier.request_loop [] Earlier.newClient Announce sample_tid.
Proof.
  split; [exact sample_connect_reply_header|].
  destruct (correlation_by_transaction_id sample_connected Announce (Serializable [])
              sample_options (sample_World 27 []) sample_connect_reply
              (be_put 8 0x1122334455667788) sample_connect_header []
              sample_connect_reply_header)
    as (_ & Htake & Hearlier).
  split.
  - apply Htake; vm_compute; reflexivity.
  - apply (Hearlier Earlier.newClient sample_tid). left. vm_compute. discriminate.
Defined.

(** C1 as the text has it does not hold of [request]: an announce call takes
    a datagram whose action is [Connect], since its transaction id is the
    call's, and returns its body. *)
Lemma request_takes_other_action :
  rh_Action sample_connect_header = Connect
  /\ rh_TransactionId sample_connect_header = newTransactionId 0xCAFEF00D
  /\ request sample_connected Announce (Serializable []) sample_options
       (with_Reads (sample_World 27 []) [Datagram sample_connect_reply])
     = Returns (set_contiguousTimeouts
                  (listening sample_connected Announce (Serializable []) sample_options
                     (sample_World 27 [])) 0,
                Some (be_put 8 0x1122334455667788), None)
  /\ request sample_connected Announce (Serializable []) sample_options
       (with_Reads (sample_World 27 []) [])
     = Unfinished
  /\ ~ drops_unless_action_and_transaction_match.
Proof.
  split; [reflexivity|]. split; [reflexivity|].
  split; [vm_compute; reflexivity|]. split; [vm_compute; reflexivity|].
  intros H.
  specialize (H sample_connected Announce (Serializable []) sample_options
                (sample_World 27 []) sample_connect_reply
                (be_put 8 0x1122334455667788) sample_connect_header []
                sample_connect_reply_header).
  assert (Hne : ~ (rh_Action sample_connect_header = Announce
                   /\ rh_TransactionId sample_connect_header
                      = newTransactionId (rand_Uint32 (sample_World 27 [])))).
  { intros [Ha _]. vm_compute in Ha. discriminate Ha. }
  specialize (H Hne). vm_compute in H. discriminate H.
Qed.

Lemma tracker_error_reported_witness :
  request sample_connected Connect nilBody []
    (with_Reads (sample_World 16 []) (sample_noise ++ [Datagram sample_error_reply]))
  = Returns (set_contiguousTimeouts
               (listening sample_connected Connect nilBody [] (sample_World 16 [])) 0,
             Some rate_limited, Some (errors_New "rate limited"))
  /\ UdpTracker.Announce sample_connected (Serializable [])
       (with_Reads (sample_World 27 []) (sample_noise ++ [Datagram sample_error_reply]))
     = Returns (set_contiguousTimeouts
                  (listening sample_connected Announce (Serializable []) sample_options
                     (sample_World 27 [])) 0,
                tracker.zeroAnnounceResponse, Some (errors_New "rate limited")).
Proof.
  assert (Hp : binary_Read (firstn readBufferSize sample_error_reply)
               = (rate_limited, inl {| rh_Action := Error; rh_TransactionId := sample_tid |}))
    by (vm_compute; reflexivity).
  split.
  - exact (proj1 (tracker_error_reported sample_connected Connect nilBody []
             (sample_World 16 []) sample_noise sample_error_reply rate_limited _ []
             ltac:(vm_compute; reflexivity) ltac:(vm_compute; reflexivity)
             Hp eq_refl eq_refl)).
  - exact (proj2 (proj2 (tracker_error_reported sample_connected Announce (Serializable [])
             sample_options (sample_World 27 []) sample_noise sample_error_reply
             rate_limited _ []
             ltac:(vm_compute; reflexivity) ltac:(vm_compute; reflexivity)
             Hp eq_refl eq_refl)) eq_refl eq_refl ltac:(vm_compute; reflexivity)).
Defined.

Lemma short_datagrams_witness :
  write_ok sample_connected Announce (Serializable []) sample_options (sample_World 27 []) = true
  /\ request sample_connected Announce (Serializable []) sample_options
       (with_Reads (sample_World 27 []) [Datagram ["000"; "001"; "002"]%byte; ReadError io_timeout])
     = request sample_connected Announce (Serializable []) sample_options
         (with_Reads (sample_World 27 []) [ReadError io_timeout])
  /\ request sample_connected Announce (Serializable []) sample_options
       (with_Reads (sample_World 27 []) [Datagram []; Datagram sample_connect_reply])
     = Returns (listening sample_connected Announce (Serializable []) sample_options
                  (sample_World 27 []), None, Some EOF).
Proof.
  assert (Hw : write_ok sample_connected Announce (Serializable []) sample_options
                 (sample_World 27 []) = true) by (vm_compute; reflexivity).
  split; [exact Hw|]. split.
  - apply (proj1 (short_datagrams sample_connected Announce (Serializable [])
             sample_options (sample_World 27 []) [ReadError io_timeout] Hw)).
    simpl. lia.
  - exact (proj2 (proj2 (short_datagrams sample_connected Announce (Serializable [])
             sample_options (sample_World 27 []) [Datagram sample_connect_reply] Hw))).
Defined.

Lemma announce_response_peers_witness :
  length sample_announce_body = (12 + 6 * 2)%nat
  /\ exists res,
       Announce_response sample_announce_body = Returns (res, None)
       /\ tracker.Interval res = 1800 /\ tracker.Leechers res = 2 /\ tracker.Seeders res = 5
       /\ tracker.Peers res
          = [ {| tracker.IP := ["010"; "000"; "000"; "001"]%byte; tracker.Port := 6881 |};
              {| tracker.IP := ["010"; "000"; "000"; "002"]%byte; tracker.Port := 51413 |} ].
Proof.
  split; [reflexivity|].
  destruct (announce_response_peers 2 sample_announce_body eq_refl)
    as (res & Hres & _).
  exists res. split; [exact Hres|].
  vm_compute in Hres. inversion Hres. repeat split.
Defined.

Lemma announce_response_truncated_witness :
  length (sample_announce_body ++ ["010"; "000"; "000"]%byte) = (12 + 6 * 2 + 3)%nat
  /\ exists res,
       Announce_response (sample_announce_body ++ ["010"; "000"; "000"]%byte)
       = Returns (res, Some ErrUnexpectedEOF)
       /\ length (tracker.Peers res) = 2%nat.
Proof.
  split; [reflexivity|].
  exact (proj1 (announce_response_truncated 2 3
                  (sample_announce_body ++ ["010"; "000"; "000"]%byte) eq_refl
                  ltac:(lia))).
Defined.

Lemma announce_trailer_witness :
  (length (list_byte_of_string (RequestURI (url sample_connected))) <= 255)%nat
  /\ announce_options "/announce"
     = ["002"; "009"; "/"; "a"; "n"; "n"; "o"; "u"; "n"; "c"; "e"]%byte
  /\ announce_options (RequestURI (url sample_connected))
     = truncated_trailer (RequestURI (url sample_connected))
  /\ byte_val (nth 1 (announce_options (RequestURI (url sample_connected))) "000"%byte) = 9.
Proof.
  assert (Hlen : (length (list_byte_of_string (RequestURI (url sample_connected))) <= 255)%nat)
    by (vm_compute; lia).
  split; [exact Hlen|]. split; [reflexivity|].
  destruct (announce_trailer sample_connected (Serializable []) (sample_World 27 []))
    as (_ & _ & _ & Hshort & _).
  destruct (Hshort Hlen) as [Htr Hb]. split; [exact Htr|exact Hb].
Defined.

(** C9 as the text has it does not hold: of a request URI of 256 bytes all
    256 go into the trailer, whose length byte is 0. *)
Lemma long_URI_is_not_truncated :
  length (list_byte_of_string long_URI) = 256%nat
  /\ length (announce_options long_URI) = 258%nat
  /\ length (truncated_trailer long_URI) = 257%nat
  /\ byte_val (nth 1 (announce_options long_URI) "000"%byte) = 0
  /\ announce_options long_URI <> truncated_trailer long_URI.
Proof.
  repeat split; try (vm_compute; reflexivity).
  intros H. apply (f_equal (@length byte)) in H. vm_compute in H. discriminate H.
Qed.

(** ** The scenarios of the description *)

(** Announce, happy path: two stray datagrams, then the answer. *)
Example Announce_happy_path :
  UdpTracker.Announce sample_connected (Serializable [])
    (sample_World 27 (sample_noise ++ [Datagram sample_announce_reply]))
  = Returns (set_contiguousTimeouts
               (listening sample_connected Announce (Serializable []) sample_options
                  (sample_World 27 [])) 0,
             {| tracker.Interval := 1800;
                tracker.Leechers := 2;
                tracker.Seeders := 5;
                tracker.Peers :=
                  [ {| tracker.IP := ["010"; "000"; "000"; "001"]%byte;
                       tracker.Port := 6881 |};
                    {| tracker.IP := ["010"; "000"; "000"; "002"]%byte;
                       tracker.Port := 51413 |} ] |},
             None).
Proof. vm_compute. reflexivity. Qed.

(** An announce on a client that never connected is refused at once. *)
Example Announce_not_connected :
  UdpTracker.Announce sample_new (Serializable [])
    (sample_World 27 [Datagram sample_announce_reply])
  = Returns (sample_new, tracker.zeroAnnounceResponse, Some ErrNotConnected).
Proof. vm_compute. reflexivity. Qed.

(** Backoff, then recovery: three calls time out under deadlines of 15, 30
    and 60 seconds, the fourth is answered and puts the counter back to
    zero, and the fifth waits 15 seconds again. *)
Example backoff_then_recovery :
  exists c1 c2 c3 c4 c5 b,
    request (set_contiguousTimeouts sample_connected 0) Connect nilBody []
      (sample_World 16 [ReadError io_timeout]) = Returns (c1, None, Some io_timeout)
    /\ request c1 Connect nilBody [] (sample_World 16 [ReadError io_timeout])
       = Returns (c2, None, Some io_timeout)
    /\ request c2 Connect nilBody [] (sample_World 16 [ReadError io_timeout])
       = Returns (c3, None, Some io_timeout)
    /\ request c3 Connect nilBody [] (sample_World 16 [Datagram sample_connect_reply])
       = Returns (c4, Some b, None)
    /\ request c4 Connect nilBody [] (sample_World 16 [ReadError io_timeout])
       = Returns (c5, None, Some io_timeout)
    /\ map contiguousTimeouts [c1; c2; c3; c4; c5] = [1; 2; 3; 0; 1]
    /\ map deadline_of [c1; c2; c3; c4; c5]
       = map (fun d => 1000 * Second + d * Second) [15; 30; 60; 120; 15].
Proof.
  do 6 eexists.
  split; [vm_compute; reflexivity|].
  split; [vm_compute; reflexivity|].
  split; [vm_compute; reflexivity|].
  split; [vm_compute; reflexivity|].
  split; [vm_compute; reflexivity|].
  split; vm_compute; reflexivity.
Qed.

(** * Further properties *)

(** ** Big-endian words: encoding and decoding *)

Lemma length_be_put (n : nat) : forall z, length (be_put n z) = n.
Proof.
  induction n as [|n IH]; intros z; cbn [be_put]; [reflexivity|].
  rewrite length_app, IH. cbn. lia.
Qed.

Lemma be_uint_snoc (bs : list byte) (b : byte) :
  be_uint (bs ++ [b]) = be_uint bs * 256 + byte_val b.
Proof. unfold be_uint. rewrite fold_left_app. reflexivity. Qed.

Lemma byte_val_range (b : byte) : 0 <= byte_val b < 256.
Proof.
  unfold byte_val. pose proof (Byte.to_N_bounded b) as H. lia.
Qed.


Lemma be_uint_range (bs : list byte) :
  0 <= be_uint bs < 2 ^ (8 * Z.of_nat (length bs)).
Proof.
  induction bs as [|b bs IH] using rev_ind.
  - cbn. lia.
  - rewrite be_uint_snoc, length_app. cbn [length].
    replace (8 * Z.of_nat (length bs + 1)) with (8 * Z.of_nat (length bs) + 8) by lia.
    rewrite Z.pow_add_r by lia.
    pose proof (byte_val_range b). change (2 ^ 8) with 256. nia.
Qed.

(** Decoding what was encoded gives the low [8 * n] bits. *)
Lemma be_uint_be_put (n : nat) : forall z, be_uint (be_put n z) = z mod 2 ^ (8 * Z.of_nat n).
Proof.
  induction n as [|n IH]; intros z.
  - cbn. rewrite Z.mod_1_r. reflexivity.
  - cbn [be_put]. rewrite be_uint_snoc, IH, to_byte_val.
    rewrite Z.shiftr_div_pow2 by lia. change (2 ^ 8) with 256.
    replace (8 * Z.of_nat (S n)) with (8 + 8 * Z.of_nat n) by lia.
    rewrite Z.pow_add_r by lia. change (2 ^ 8) with 256.
    rewrite (Z.rem_mul_r z 256 (2 ^ (8 * Z.of_nat n))) by lia. lia.
Qed.



Lemma wrap_signed_range (width z : Z) :
  0 < width -> - 2 ^ (width - 1) <= wrap_signed width z < 2 ^ (width - 1).
Proof.
  intros Hw. unfold wrap_signed.
  assert (Hp : 2 ^ width = 2 * 2 ^ (width - 1)).
  { replace width with (Z.succ (width - 1)) at 1 by lia.
    apply Z.pow_succ_r. lia. }
  assert (0 < 2 ^ (width - 1)) by (apply Z.pow_pos_nonneg; lia).
  pose proof (Z.mod_pos_bound (z + 2 ^ (width - 1)) (2 ^ width)). lia.
Qed.

Lemma wrap_signed_mod (width z : Z) :
  0 < width -> - 2 ^ (width - 1) <= z < 2 ^ (width - 1) ->
  wrap_signed width (z mod 2 ^ width) = z.
Proof.
  intros Hw Hz. unfold wrap_signed.
  assert (Hp : 2 ^ width = 2 * 2 ^ (width - 1)).
  { replace width with (Z.succ (width - 1)) at 1 by lia.
    apply Z.pow_succ_r. lia. }
  rewrite Zplus_mod_idemp_l. rewrite Z.mod_small; lia.
Qed.

(** A 32-bit value survives the wire. *)
Lemma int32_round_trip (z : Z) :
  - 2 ^ 31 <= z < 2 ^ 31 -> to_int32 (be_uint (be_put 4 z)) = z.
Proof.
  intros Hz. rewrite be_uint_be_put. unfold to_int32.
  change (8 * Z.of_nat 4) with 32. apply wrap_signed_mod; [lia|exact Hz].
Qed.

Lemma newTransactionId_range (r : Z) : - 2 ^ 31 <= newTransactionId r < 2 ^ 31.
Proof. unfold newTransactionId, to_int32. apply (wrap_signed_range 32). lia. Qed.

(** ** The request header and the echo of the transaction id *)

Lemma firstn_exact {A : Type} (l1 l2 : list A) (n : nat) :
  length l1 = n -> firstn n (l1 ++ l2) = l1.
Proof.
  intros H. subst n. rewrite firstn_app, Nat.sub_diag, firstn_O, app_nil_r.
  apply firstn_all.
Qed.

Lemma skipn_exact {A : Type} (l1 l2 : list A) (n : nat) :
  length l1 = n -> skipn n (l1 ++ l2) = l2.
Proof.
  intros H. subst n. rewrite skipn_app, Nat.sub_diag, skipn_all. reflexivity.
Qed.

Lemma request_datagram_layout (c : client) (action : Action) (args : Body)
    (options : list byte) (w : World) :
  firstn 8 (request_datagram c action args options w) = be_put 8 (connectionId c)
  /\ firstn 4 (skipn 8 (request_datagram c action args options w)) = be_put 4 action
  /\ firstn 4 (skipn 12 (request_datagram c action args options w))
     = be_put 4 (newTransactionId (rand_Uint32 w))
  /\ skipn 16 (request_datagram c action args options w)
     = match args with Serializable bs => bs | _ => [] end ++ options.
Proof.
  unfold request_datagram, encode_RequestHeader.
  cbn [rq_ConnectionId rq_Action rq_TransactionId].
  set (tail := match args with Serializable bs => bs | _ => [] end ++ options).
  set (a := be_put 8 (connectionId c)).
  set (b := be_put 4 action).
  set (t := be_put 4 (newTransactionId (rand_Uint32 w))).
  assert (Ha : length a = 8%nat) by apply length_be_put.
  assert (Hb : length b = 4%nat) by apply length_be_put.
  assert (Ht : length t = 4%nat) by apply length_be_put.
  assert (Hab : length (a ++ b) = 12%nat) by (rewrite length_app; lia).
  assert (Habt : length (a ++ b ++ t) = 16%nat) by (rewrite !length_app; lia).
  split; [|split; [|split]].
  - rewrite <- !app_assoc. apply firstn_exact. exact Ha.
  - rewrite <- !app_assoc. rewrite (skipn_exact a _ 8 Ha). apply firstn_exact. exact Hb.
  - rewrite <- !app_assoc. rewrite (app_assoc a b).
    rewrite (skipn_exact (a ++ b) _ 12 Hab). apply firstn_exact. exact Ht.
  - apply skipn_exact. exact Habt.
Qed.

(** The header of a response made of an action, a transaction id and a
    body that fit the read buffer. *)
Lemma response_datagram_header (a t : Z) (body : list byte) :
  - 2 ^ 31 <= a < 2 ^ 31 -> - 2 ^ 31 <= t < 2 ^ 31 ->
  Z.of_nat (length body) + 8 <= 0x10000 ->
  binary_Read (firstn readBufferSize (response_datagram a t body))
  = (body, inl {| rh_Action := a; rh_TransactionId := t |}).
Proof.
  intros Ha Ht Hlen. unfold response_datagram.
  pose proof (int32_round_trip a Ha) as Ra.
  pose proof (int32_round_trip t Ht) as Rt.
  pose proof (length_be_put 4 a) as La.
  pose proof (length_be_put 4 t) as Lt.
  revert Ra Rt La Lt. generalize (be_put 4 a) (be_put 4 t). intros A T Ra Rt La Lt.
  assert (Lat : length (A ++ T) = 8%nat) by (rewrite length_app; lia).
  rewrite readBufferSize_firstn by (rewrite !length_app, La, Lt; lia).
  rewrite binary_Read_header by (rewrite !length_app, La, Lt; lia).
  rewrite (firstn_exact A _ 4 La), (skipn_exact A _ 4 La), (firstn_exact T _ 4 Lt).
  rewrite Ra, Rt.
  rewrite app_assoc, (skipn_exact _ _ 8 Lat). reflexivity.
Qed.

(** X1. The transaction id goes out as bytes 12 to 15 of the datagram, and a
    response that echoes those four bytes after any action is taken as the
    answer of the call: its body is returned (as the text of an error when
    the action is [Error]) and the counter is put back to zero. *)
Theorem echoed_transaction_id_is_accepted (c : client) (action : Action) (args : Body)
    (options : list byte) (w : World) (a : Z) (body : list byte) (rest : list ReadResult)
    (Hw : write_ok c action args options w = true)
    (Ha : - 2 ^ 31 <= a < 2 ^ 31)
    (Hlen : Z.of_nat (length body) + 8 <= 0x10000) :
  request c action args options
    (with_Reads w
       (Datagram (be_put 4 a
                  ++ firstn 4 (skipn 12 (request_datagram c action args options w))
                  ++ body) :: rest))
  = Returns (set_contiguousTimeouts (listening c action args options w) 0,
             Some body,
             if a =? Error then Some (errors_New (string_of_list_byte body)) else None).
Proof.
  destruct (request_datagram_layout c action args options w) as (_ & _ & Hecho & _).
  rewrite Hecho.
  apply (request_matched c action args options w _ body
           {| rh_Action := a; rh_TransactionId := newTransactionId (rand_Uint32 w) |}
           rest Hw).
  - apply (response_datagram_header a (newTransactionId (rand_Uint32 w)) body Ha
             (newTransactionId_range _) Hlen).
  - reflexivity.
Qed.

Lemma echoed_transaction_id_is_accepted_witness :
  request sample_connected Announce (Serializable []) sample_options
    (with_Reads (sample_World 27 [])
       [Datagram (be_put 4 Announce
                  ++ firstn 4 (skipn 12 (request_datagram sample_connected Announce
                                           (Serializable []) sample_options
                                           (sample_World 27 [])))
                  ++ sample_announce_body)])
  = Returns (set_contiguousTimeouts
               (listening sample_connected Announce (Serializable []) sample_options
                  (sample_World 27 [])) 0,
             Some sample_announce_body, None).
Proof.
  exact (echoed_transaction_id_is_accepted sample_connected Announce (Serializable [])
           sample_options (sample_World 27 []) Announce sample_announce_body []
           ltac:(vm_compute; reflexivity) ltac:(unfold Announce; lia)
           ltac:(vm_compute; discriminate)).
Defined.

(** ** The handshake *)

Lemma handshaking_socket (c : client) :
  exists s, socket (handshaking c) = Some s
    /\ (forall s0, socket c = Some s0 -> s = s0)
    /\ (socket c = None -> s = dialed (Host (url c))).
Proof.
  unfold handshaking. cbn [socket set_connectionId].
  destruct (socket c) as [s0|] eqn:Es.
  - exists s0. cbn [socket set_connectionId]. rewrite Es.
    repeat split; [intros s1 H; congruence | discriminate].
  - eexists. cbn [socket set_socket]. repeat split. discriminate.
Qed.

Lemma handshaking_datagram (c : client) (w : World) :
  request_datagram (handshaking c) Connect nilBody [] w
  = be_put 8 0x41727101980 ++ be_put 4 Connect
    ++ be_put 4 (newTransactionId (rand_Uint32 w)).
Proof.
  unfold request_datagram, encode_RequestHeader.
  cbn [rq_ConnectionId rq_Action rq_TransactionId app]. rewrite app_nil_r.
  unfold handshaking. cbn [socket set_connectionId].
  destruct (socket c); reflexivity.
Qed.

Lemma handshaking_write_ok (c : client) (w : World) :
  Write_result w = (16, None) ->
  write_ok (handshaking c) Connect nilBody [] w = true.
Proof.
  intros Hw. unfold write_ok.
  destruct (handshaking_socket c) as (s & Hs & _). rewrite Hs, Hw.
  rewrite handshaking_datagram, !length_app, !length_be_put. reflexivity.
Qed.

(** [Connect] on a client that is not connected and has or gets a socket is
    the exchange of [request], then the reading of the connection id. *)
Lemma Connect_handshaking (c : client) (w : World) :
  connected c (Now_connected w) = false ->
  socket c <> None \/ Dial_error w = None ->
  UdpTracker.Connect c w
  = ('(c1, b, err) <- request (handshaking c) Connect nilBody [] w ;;
     match err, b with
     | Some e, _ => Returns (c1, Some e)
     | None, None => Panics "invalid memory address or nil pointer dereference"
     | None, Some b =>
         match readBody (A := ConnectionResponse) b with
         | (_, inr e) => Returns (c1, Some e)
         | (_, inl res) =>
             Returns (set_connectionIdReceived
                        (set_connectionId c1 (cr_ConnectionId res)) (Now_received w),
                      None)
         end
     end).
Proof.
  intros Hc Hd. unfold UdpTracker.Connect, handshaking. rewrite Hc.
  cbn [socket set_connectionId].
  destruct (socket c) as [s|] eqn:Es.
  - reflexivity.
  - destruct Hd as [Hd|Hd]; [congruence|]. rewrite Hd. reflexivity.
Qed.

(** The run of a handshake that the tracker answers. *)
Lemma Connect_answered (c : client) (w : World) (noise : list ReadResult)
    (p body : list byte) (h : ResponseHeader) (rest : list ReadResult) :
  connected c (Now_connected w) = false ->
  socket c <> None \/ Dial_error w = None ->
  Write_result w = (16, None) ->
  forallb (passed_over (newTransactionId (rand_Uint32 w))) noise = true ->
  binary_Read (firstn readBufferSize p) = (body, inl h) ->
  rh_TransactionId h = newTransactionId (rand_Uint32 w) ->
  rh_Action h <> Error ->
  (8 <= length body)%nat ->
  UdpTracker.Connect c (with_Reads w (noise ++ Datagram p :: rest))
  = Returns (set_connectionIdReceived
               (set_connectionId
                  (set_contiguousTimeouts
                     (listening (handshaking c) Connect nilBody [] w) 0)
                  (to_int64 (be_uint (firstn 8 body))))
               (Now_received w),
             None).
Proof.
  intros Hc Hd Hw Hn Hp Ht Ha Hb.
  rewrite Connect_handshaking by assumption.
  rewrite request_passes_over by exact Hn.
  rewrite (request_matched (handshaking c) Connect nilBody [] w p body h rest
             (handshaking_write_ok c w Hw) Hp Ht).
  apply Z.eqb_neq in Ha. rewrite Ha. cbn [bind].
  unfold readBody. rewrite binary_Read_enough by (simpl; lia).
  reflexivity.
Qed.

(** X2. A handshake that the tracker answers: the client sends exactly the
    16 bytes made of the bootstrap id [0x41727101980], the action 0 and the
    transaction id; it keeps the first eight bytes of the response body as
    its connection id, stamps it with the clock read after the exchange, has
    the counter at zero, and is connected for the next sixty seconds. *)
Theorem Connect_handshake (c : client) (w : World) (noise : list ReadResult)
    (p body : list byte) (h : ResponseHeader) (rest : list ReadResult)
    (Hc : connected c (Now_connected w) = false)
    (Hd : socket c <> None \/ Dial_error w = None)
    (Hw : Write_result w = (16, None))
    (Hn : forallb (passed_over (newTransactionId (rand_Uint32 w))) noise = true)
    (Hp : binary_Read (firstn readBufferSize p) = (body, inl h))
    (Ht : rh_TransactionId h = newTransactionId (rand_Uint32 w))
    (Ha : rh_Action h <> Error)
    (Hb : (8 <= length body)%nat) :
  exists c' s s',
    UdpTracker.Connect c (with_Reads w (noise ++ Datagram p :: rest)) = Returns (c', None)
    /\ connectionId c' = to_int64 (be_uint (firstn 8 body))
    /\ connectionIdReceived c' = Now_received w
    /\ contiguousTimeouts c' = 0
    /\ socket (handshaking c) = Some s /\ socket c' = Some s'
    /\ Written s'
       = Written s ++ [be_put 8 0x41727101980 ++ be_put 4 Connect
                       ++ be_put 4 (newTransactionId (rand_Uint32 w))]
    /\ (IsZero (Now_received w) = false ->
        forall t, t < Now_received w + 60 * Second -> connected c' t = true).
Proof.
  destruct (handshaking_socket c) as (s & Hs & _).
  eexists. exists s. eexists.
  split; [apply (Connect_answered c w noise p body h rest); assumption|].
  cbn [connectionId connectionIdReceived contiguousTimeouts socket
       set_connectionIdReceived set_connectionId set_contiguousTimeouts].
  split; [reflexivity|]. split; [reflexivity|]. split; [reflexivity|].
  split; [exact Hs|]. unfold listening. rewrite Hs. cbn [socket set_socket].
  split; [reflexivity|]. split.
  - cbn [Written SetReadDeadline wrote]. rewrite handshaking_datagram. reflexivity.
  - intros Hz t Hlt. apply connected_window; [exact Hz|exact Hlt].
Qed.

Lemma Connect_handshake_witness :
  exists c',
    UdpTracker.Connect sample_new
      (with_Reads (sample_World 16 []) (sample_noise ++ [Datagram sample_connect_reply]))
    = Returns (c', None)
    /\ connectionId c' = 0x1122334455667788
    /\ connectionIdReceived c' = 1001 * Second
    /\ contiguousTimeouts c' = 0.
Proof.
  destruct (Connect_handshake sample_new (sample_World 16 []) sample_noise
              sample_connect_reply (be_put 8 0x1122334455667788) sample_connect_header []
              ltac:(vm_compute; reflexivity) ltac:(right; reflexivity)
              ltac:(reflexivity) ltac:(vm_compute; reflexivity)
              ltac:(vm_compute; reflexivity) ltac:(reflexivity)
              ltac:(vm_compute; discriminate) ltac:(vm_compute; lia))
    as (c' & s & s' & Hrun & Hid & Hrec & Hct & _).
  exists c'. split; [exact Hrun|]. split; [rewrite Hid; vm_compute; reflexivity|].
  split; [exact Hrec|exact Hct].
Defined.

(** ** What a call leaves alone *)

Lemma write_frame (c c' : client) h args options w err :
  write c h args options w = Returns (c', err) ->
  connectionId c' = connectionId c /\ connectionIdReceived c' = connectionIdReceived c
  /\ contiguousTimeouts c' = contiguousTimeouts c /\ url c' = url c.
Proof.
  unfold write. destruct args; try discriminate;
    (destruct (socket c); [|discriminate]);
    (destruct (Write_result w) as [n [e|]]);
    try (destruct (negb _); [discriminate|]);
    intros H; inversion H; subst; repeat split.
Qed.

Lemma request_frame (c c' : client) action args options w b err :
  request c action args options w = Returns (c', b, err) ->
  connectionId c' = connectionId c /\ connectionIdReceived c' = connectionIdReceived c
  /\ url c' = url c.
Proof.
  unfold request.
  destruct (write c _ args options w) as [[c1 [e|]]| |] eqn:Ew;
    cbn [bind]; try discriminate;
    apply write_frame in Ew; destruct Ew as (Hid & Hrec & _ & Hurl).
  - intros H. inversion H; subst. auto.
  - destruct (socket c1); [|discriminate].
    intros H. apply request_loop_frame in H. rewrite H. cbn. auto.
Qed.

(** X3. [Announce] never touches the connection: whatever it returns, an
    error of the tracker included, the connection id, its receipt time and
    the URL are what they were, so the client is connected at a time exactly
    when it was before the call. *)
Theorem Announce_keeps_connection (c c' : client) (req : Body) (w : World)
    (res : tracker.AnnounceResponse) (err : option error)
    (Hret : UdpTracker.Announce c req w = Returns (c', res, err)) :
  connectionId c' = connectionId c
  /\ connectionIdReceived c' = connectionIdReceived c
  /\ url c' = url c
  /\ (forall t, connected c' t = connected c t).
Proof.
  assert (H : connectionId c' = connectionId c
              /\ connectionIdReceived c' = connectionIdReceived c /\ url c' = url c).
  { revert Hret. unfold UdpTracker.Announce.
    destruct (negb (connected c (Now_connected w))).
    - intros H. inversion H; subst. auto.
    - destruct (request c Announce req (announce_options (RequestURI (url c))) w)
        as [[[c1 b] err1]| |] eqn:Er; cbn [bind]; try discriminate.
      apply request_frame in Er.
      destruct err1 as [e|].
      + intros H. inversion H; subst. exact Er.
      + destruct b as [b|]; [|discriminate].
        destruct (Announce_response b) as [[res1 err2]| |]; cbn [bind]; try discriminate.
        intros H. inversion H; subst. exact Er. }
  destruct H as (Hid & Hrec & Hurl). repeat split; try assumption.
  intros t. unfold connected. rewrite Hrec. reflexivity.
Qed.

Lemma Announce_keeps_connection_witness :
  exists c',
    UdpTracker.Announce sample_connected (Serializable [])
      (with_Reads (sample_World 27 []) (sample_noise ++ [Datagram sample_error_reply]))
    = Returns (c', tracker.zeroAnnounceResponse, Some (errors_New "rate limited"))
    /\ connectionId c' = 0x1122334455667788
    /\ connected c' (1058 * Second) = true.
Proof.
  destruct (UdpTracker.Announce sample_connected (Serializable [])
              (with_Reads (sample_World 27 []) (sample_noise ++ [Datagram sample_error_reply])))
    as [[[c' res] err]| |] eqn:E; try (vm_compute in E; discriminate E).
  destruct (Announce_keeps_connection sample_connected c' _ _ res err E)
    as (Hid & _ & _ & Hconn).
  exists c'. split; [vm_compute in E; inversion E; reflexivity|].
  split; [exact Hid|]. rewrite Hconn. vm_compute. reflexivity.
Defined.

(** X4. A handshake that fails after the connected check leaves the
    bootstrap id [0x41727101980] as the client's connection id: the id held
    before, expired or not yet received, is gone. *)
Theorem failed_Connect_leaves_bootstrap_id (c c' : client) (w : World) (e : error)
    (Hc : connected c (Now_connected w) = false)
    (Hfail : UdpTracker.Connect c w = Returns (c', Some e)) :
  connectionId c' = 0x41727101980 /\ url c' = url c.
Proof.
  revert Hfail. unfold UdpTracker.Connect. rewrite Hc.
  set (c1 := set_connectionId c 4497486125440).
  destruct (match socket c1 with
            | Some _ => (c1, None)
            | None => match Dial_error w with
                      | Some e => (c1, Some e)
                      | None => (set_socket c1 (Some (dialed (Host (url c1)))), None)
                      end
            end) as [c2 err2] eqn:Ed.
  assert (H2 : connectionId c2 = 4497486125440 /\ url c2 = url c).
  { destruct (socket c1); [|destruct (Dial_error w)];
      inversion Ed; subst; split; reflexivity. }
  destruct err2 as [e2|].
  - intros H. inversion H; subst. exact H2.
  - destruct (request c2 Connect nilBody [] w) as [[[c3 b] err3]| |] eqn:Er;
      cbn [bind]; try discriminate.
    apply request_frame in Er. destruct Er as (Hid & _ & Hurl).
    destruct H2 as [H2 H2u].
    destruct err3 as [e3|].
    + intros H. inversion H; subst. split; congruence.
    + destruct b as [b|]; [|discriminate].
      destruct (readBody (A := ConnectionResponse) b) as [r [res|e3]].
      * discriminate.
      * intros H. inversion H; subst. split; congruence.
Qed.

Lemma failed_Connect_leaves_bootstrap_id_witness :
  exists c',
    UdpTracker.Connect sample_connected (later_World 16 [ReadError io_timeout])
    = Returns (c', Some io_timeout)
    /\ connectionId sample_connected = 0x1122334455667788
    /\ connectionId c' = 0x41727101980.
Proof.
  destruct (UdpTracker.Connect sample_connected (later_World 16 [ReadError io_timeout]))
    as [[c' [e|]]| |] eqn:E; try (vm_compute in E; discriminate E).
  assert (He : e = io_timeout) by (vm_compute in E; inversion E; reflexivity).
  subst e. exists c'. split; [reflexivity|]. split; [reflexivity|].
  assert (Hc : connected sample_connected
                 (Now_connected (later_World 16 [ReadError io_timeout])) = false)
    by (vm_compute; reflexivity).
  exact (proj1 (failed_Connect_leaves_bootstrap_id sample_connected c'
                  (later_World 16 [ReadError io_timeout]) io_timeout Hc E)).
Defined.

(** ** The connection over time *)

(** X5. After a handshake at time T a further [Connect] before T + 60 s
    returns at once without an error and changes nothing: no datagram goes
    out and no clock but the one of the connected check is read. *)
Theorem Connect_again_is_a_no_op (c c' : client) (w w2 : World)
    (Hc : connected c (Now_connected w) = false)
    (Hnow : IsZero (Now_received w) = false)
    (Hok : UdpTracker.Connect c w = Returns (c', None))
    (Ht : Now_connected w2 < Now_received w + 60 * Second) :
  UdpTracker.Connect c' w2 = Returns (c', None).
Proof.
  assert (HT : connectionIdReceived c' = Now_received w).
  { apply Connect_cases in Hok.
    destruct Hok as [[Hc' _]|[_ [[e [He _]]|[_ HT]]]];
      [congruence | discriminate He | exact HT]. }
  assert (Hconn : connected c' (Now_connected w2) = true).
  { apply connected_window; rewrite HT; assumption. }
  unfold UdpTracker.Connect. rewrite Hconn. reflexivity.
Qed.

Lemma Connect_again_is_a_no_op_witness :
  exists c',
    UdpTracker.Connect sample_new (sample_World 16 [Datagram sample_connect_reply])
    = Returns (c', None)
    /\ UdpTracker.Connect c' (sample_World 16 [ReadError connection_refused])
       = Returns (c', None).
Proof.
  destruct (UdpTracker.Connect sample_new (sample_World 16 [Datagram sample_connect_reply]))
    as [[c' [e|]]| |] eqn:E; try (vm_compute in E; discriminate E).
  exists c'. split; [reflexivity|].
  apply (Connect_again_is_a_no_op sample_new c'
           (sample_World 16 [Datagram sample_connect_reply])
           (sample_World 16 [ReadError connection_refused])).
  - vm_compute. reflexivity.
  - vm_compute. reflexivity.
  - exact E.
  - vm_compute. reflexivity.
Defined.

(** X6. Sixty seconds after the handshake the connection id is not used any
    more: [Announce] returns the not-connected error with an empty response,
    sends nothing and leaves the client as it is.  The same holds for a
    client whose receipt time is the zero time. *)
Theorem Announce_refused_when_not_connected (c c' : client) (w w2 : World) (req : Body)
    (Hc : connected c (Now_connected w) = false)
    (Hok : UdpTracker.Connect c w = Returns (c', None))
    (Ht : Now_received w + 60 * Second <= Now_connected w2) :
  UdpTracker.Announce c' req w2
  = Returns (c', tracker.zeroAnnounceResponse, Some ErrNotConnected)
  /\ (forall (c0 : client) (w0 : World),
        IsZero (connectionIdReceived c0) = true ->
        UdpTracker.Announce c0 req w0
        = Returns (c0, tracker.zeroAnnounceResponse, Some ErrNotConnected)).
Proof.
  assert (HT : connectionIdReceived c' = Now_received w).
  { apply Connect_cases in Hok.
    destruct Hok as [[Hc' _]|[_ [[e [He _]]|[_ HT]]]];
      [congruence | discriminate He | exact HT]. }
  split.
  - assert (Hconn : connected c' (Now_connected w2) = false).
    { unfold connected, Before, Add, Minute. rewrite HT.
      apply andb_false_iff. right. apply Z.ltb_ge.
      unfold Second, Nanosecond in *. lia. }
    unfold UdpTracker.Announce. rewrite Hconn. reflexivity.
  - intros c0 w0 Hz. unfold UdpTracker.Announce.
    rewrite (connected_zero c0 (Now_connected w0) Hz). reflexivity.
Qed.

Lemma Announce_refused_when_not_connected_witness :
  exists c',
    UdpTracker.Connect sample_new (sample_World 16 [Datagram sample_connect_reply])
    = Returns (c', None)
    /\ UdpTracker.Announce c' (Serializable []) (later_World 27 [Datagram sample_announce_reply])
       = Returns (c', tracker.zeroAnnounceResponse, Some ErrNotConnected).
Proof.
  destruct (UdpTracker.Connect sample_new (sample_World 16 [Datagram sample_connect_reply]))
    as [[c' [e|]]| |] eqn:E; try (vm_compute in E; discriminate E).
  exists c'. split; [reflexivity|].
  assert (Hc : connected sample_new
                 (Now_connected (sample_World 16 [Datagram sample_connect_reply])) = false)
    by (vm_compute; reflexivity).
  assert (Ht : Now_received (sample_World 16 [Datagram sample_connect_reply]) + 60 * Second
               <= Now_connected (later_World 27 [Datagram sample_announce_reply]))
    by (vm_compute; discriminate).
  exact (proj1 (Announce_refused_when_not_connected sample_new c'
                  (sample_World 16 [Datagram sample_connect_reply])
                  (later_World 27 [Datagram sample_announce_reply])
                  (Serializable []) Hc E Ht)).
Defined.



(** ** Sending *)

(** X8. When the socket refuses the datagram, [request] returns the error
    of the write at once: nothing is read, no deadline is set, and the
    counter stays even if the error is a timeout.  When the socket reports
    fewer or more bytes written than the datagram holds, the call panics. *)
Theorem request_send_failures (c : client) (action : Action) (args : Body)
    (options : list byte) (w : World) (s : Conn)
    (Hs : socket c = Some s)
    (Hargs : forall e, args <> Unserializable e) :
  (forall n e, Write_result w = (n, Some e) ->
     request c action args options w
     = Returns (set_socket c (Some (wrote s (request_datagram c action args options w))),
                None, Some e))
  /\ (forall n, Write_result w = (n, None) ->
      n <> Z.of_nat (length (request_datagram c action args options w)) ->
      request c action args options w = Panics "write should send all or error").
Proof.
  unfold request, write, request_datagram.
  destruct args as [|bs|e0]; [| |exfalso; apply (Hargs e0); reflexivity]; rewrite Hs.
  - cbn [app]. split.
    + intros n e Hw. rewrite Hw. reflexivity.
    + intros n Hw Hn. rewrite Hw. apply Z.eqb_neq in Hn. rewrite Hn. reflexivity.
  - rewrite app_assoc. split.
    + intros n e Hw. rewrite Hw. reflexivity.
    + intros n Hw Hn. rewrite Hw. apply Z.eqb_neq in Hn. rewrite Hn. reflexivity.
Qed.

Lemma request_send_failures_witness :
  request sample_connected Announce (Serializable []) sample_options
    {| Now_connected := 1000 * Second; Dial_error := None; rand_Uint32 := 0xCAFEF00D;
       Write_result := (0, Some io_timeout); Now_deadline := 1000 * Second;
       Reads := [Datagram sample_announce_reply]; Now_received := 1001 * Second |}
  = Returns (set_socket sample_connected
               (Some (wrote (dialed (Host sample_URL))
                        (request_datagram sample_connected Announce (Serializable [])
                           sample_options (sample_World 27 [])))),
             None, Some io_timeout)
  /\ request sample_connected Announce (Serializable []) sample_options
       (sample_World 26 [Datagram sample_announce_reply])
     = Panics "write should send all or error".
Proof.
  split.
  - exact (proj1 (request_send_failures sample_connected Announce (Serializable [])
             sample_options
             {| Now_connected := 1000 * Second; Dial_error := None;
                rand_Uint32 := 0xCAFEF00D; Write_result := (0, Some io_timeout);
                Now_deadline := 1000 * Second;
                Reads := [Datagram sample_announce_reply];
                Now_received := 1001 * Second |}
             (dialed (Host sample_URL)) eq_refl ltac:(discriminate))
             0 io_timeout eq_refl).
  - exact (proj2 (request_send_failures sample_connected Announce (Serializable [])
             sample_options (sample_World 26 [Datagram sample_announce_reply])
             (dialed (Host sample_URL)) eq_refl ltac:(discriminate))
             26 eq_refl ltac:(vm_compute; discriminate)).
Defined.

(** ** Decoding, whatever the tracker sent *)



(** X10. Whatever the response body, the decoding in [Announce] returns;
    the peers it gives are as many as whole six-byte records follow the
    twelve header bytes; and there is no error exactly when the body is the
    twelve bytes and whole records, the error being otherwise the wrapped
    one (short header) or the bare unexpected end of file (cut record). *)
Theorem Announce_response_outcome (body : list byte) :
  exists res err,
    Announce_response body = Returns (res, err)
    /\ length (tracker.Peers res) = ((length body - 12) / 6)%nat
    /\ (err = None <-> (12 <= length body)%nat /\ ((length body - 12) mod 6 = 0)%nat)
    /\ ((length body < 12)%nat ->
        err = Some (errors_New "error parsing announce response: unexpected EOF"))
    /\ ((12 <= length body)%nat -> ((length body - 12) mod 6 <> 0)%nat ->
        err = Some ErrUnexpectedEOF).
Proof.
  destruct (Nat.ltb (length body) 12) eqn:E.
  - apply Nat.ltb_lt in E. do 2 eexists.
    split; [apply Announce_response_short; exact E|].
    replace (length body - 12)%nat with 0%nat by lia.
    split; [reflexivity|]. split; [split; [discriminate|lia]|].
    split; [reflexivity|lia].
  - apply Nat.ltb_ge in E.
    pose proof (Nat.div_mod_eq (length body - 12) 6) as Hdm.
    pose proof (Nat.mod_upper_bound (length body - 12) 6 ltac:(lia)) as Hr.
    do 2 eexists.
    split; [apply (Announce_response_run ((length body - 12) / 6)
                     ((length body - 12) mod 6) body); lia|].
    match goal with
    | |- context [fold_left append_Peer ?ps ?r] =>
        destruct (append_Peers ps r) as (HP & _)
    end.
    rewrite HP. cbn [tracker.Peers app]. rewrite length_map, length_decode_Peers.
    split; [reflexivity|].
    destruct ((length body - 12) mod 6)%nat as [|r] eqn:Er; cbn [Nat.eqb].
    + split; [split; [auto|reflexivity]|]. split; [lia|]. intros _ H. congruence.
    + split; [split; [discriminate|intros [_ H]; discriminate H]|].
      split; [lia|]. reflexivity.
Qed.

Lemma decode_Peers_wire (N : nat) :
  forall bs, (6 * N <= length bs)%nat ->
    Forall wire_Peer (map to_tracker_Peer (decode_Peers N bs)).
Proof.
  induction N as [|N IH]; intros bs Hlen; cbn [decode_Peers map]; constructor.
  - unfold wire_Peer. cbn [to_tracker_Peer tracker.IP tracker.Port decode Fixed_Peer IP Port].
    split.
    + rewrite firstn_firstn, length_firstn. lia.
    + pose proof (be_uint_range (skipn 4 (firstn 6 bs))) as Hrange.
      rewrite length_skipn, length_firstn in Hrange.
      replace (Nat.min 6 (length bs) - 4)%nat with 2%nat in Hrange by lia.
      exact Hrange.
  - apply IH. rewrite length_skipn. lia.
Qed.

Lemma Returns_inj {A : Type} (a b : A) : Returns a = Returns b -> a = b.
Proof. intros H. injection H as H. exact H. Qed.

(** X11. Every peer [Announce] decodes has an address of four bytes and a
    port between 0 and 65535, and the interval and the two counts are 32-bit
    signed values, whether or not the decoding ends with an error. *)
Theorem Announce_response_is_well_formed (body : list byte)
    (res : tracker.AnnounceResponse) (err : option error)
    (Hret : Announce_response body = Returns (res, err)) :
  Forall wire_Peer (tracker.Peers res)
  /\ - 2 ^ 31 <= tracker.Interval res < 2 ^ 31
  /\ - 2 ^ 31 <= tracker.Leechers res < 2 ^ 31
  /\ - 2 ^ 31 <= tracker.Seeders res < 2 ^ 31.
Proof.
  destruct (Nat.ltb (length body) 12) eqn:E.
  - apply Nat.ltb_lt in E. rewrite (Announce_response_short body E) in Hret.
    inversion Hret; subst. cbn. repeat split; try constructor; lia.
  - apply Nat.ltb_ge in E.
    pose proof (Nat.div_mod_eq (length body - 12) 6) as Hdm.
    pose proof (Nat.mod_upper_bound (length body - 12) 6 ltac:(lia)) as Hr.
    pose proof (Announce_response_run ((length body - 12) / 6)
                  ((length body - 12) mod 6) body ltac:(lia) Hr) as Hrun.
    rewrite Hret in Hrun. apply Returns_inj in Hrun.
    apply (f_equal fst) in Hrun. cbn [fst] in Hrun. subst res.
    match goal with
    | |- context [fold_left append_Peer ?ps ?r] =>
        destruct (append_Peers ps r) as (HP & HI & HL & HS)
    end.
    rewrite HP, HI, HL, HS. cbn [tracker.Peers tracker.Interval tracker.Leechers
      tracker.Seeders app].
    split; [apply decode_Peers_wire; rewrite length_skipn; lia|].
    repeat split; apply (wrap_signed_range 32); lia.
Qed.

Lemma Announce_response_is_well_formed_witness :
  exists res,
    Announce_response (sample_announce_body ++ ["010"; "000"; "000"]%byte)
    = Returns (res, Some ErrUnexpectedEOF)
    /\ Forall wire_Peer (tracker.Peers res).
Proof.
  destruct (Announce_response (sample_announce_body ++ ["010"; "000"; "000"]%byte))
    as [[res [e|]]| |] eqn:E; try (vm_compute in E; discriminate E).
  assert (He : e = ErrUnexpectedEOF) by (vm_compute in E; inversion E; reflexivity).
  subst e. exists res. split; [reflexivity|].
  exact (proj1 (Announce_response_is_well_formed
                  (sample_announce_body ++ ["010"; "000"; "000"]%byte)
                  res (Some ErrUnexpectedEOF) E)).
Defined.

(** ** The deadline, for every counter *)

Lemma timeout_closed_form (n : Z) :
  timeout n = 15 * Second * 2 ^ Z.min (Z.max n 0) 8.
Proof.
  destruct (Z_le_gt_dec n 0) as [H0|H0].
  - rewrite timeout_nonpositive by exact H0.
    rewrite Z.max_r, Z.min_l by lia. vm_compute. reflexivity.
  - rewrite Z.max_l by lia.
    destruct (Z_le_gt_dec 8 n) as [H8|H8].
    + rewrite timeout_capped by exact H8. rewrite Z.min_r by lia.
      vm_compute. reflexivity.
    + rewrite Z.min_l by lia.
      assert (H : n = 1 \/ n = 2 \/ n = 3 \/ n = 4 \/ n = 5 \/ n = 6 \/ n = 7) by lia.
      intuition (subst n; vm_compute; reflexivity).
Qed.

(** X12. For every value of the counter, negative ones included, the
    deadline is between 15 and 3840 seconds, and a larger counter never
    gives a shorter deadline. *)
Theorem timeout_is_bounded_and_monotone (m n : Z) :
  15 * Second <= timeout n <= 3840 * Second
  /\ (m <= n -> timeout m <= timeout n).
Proof.
  assert (Hpow : forall k, 0 <= k <= 8 -> 1 <= 2 ^ k <= 256).
  { intros k Hk. split.
    - change 1 with (2 ^ 0). apply Z.pow_le_mono_r; lia.
    - change 256 with (2 ^ 8). apply Z.pow_le_mono_r; lia. }
  split.
  - rewrite timeout_closed_form.
    pose proof (Hpow (Z.min (Z.max n 0) 8) ltac:(lia)) as H.
    unfold Second, Nanosecond. lia.
  - intros Hmn. rewrite !timeout_closed_form.
    apply Z.mul_le_mono_nonneg_l; [unfold Second, Nanosecond; lia|].
    apply Z.pow_le_mono_r; lia.
Qed.

(** ** The response body *)

Lemma readBufferSize_value : Z.of_nat readBufferSize = 0x10000.
Proof. vm_compute. reflexivity. Qed.

Lemma request_loop_body (reads : list ReadResult) (tid : Z) :
  forall c c' b err,
    request_loop reads c tid = Returns (c', Some b, err) ->
    exists payload,
      In (Datagram payload) reads /\ b = skipn 8 (firstn readBufferSize payload)
      /\ (8 <= length (firstn readBufferSize payload))%nat
      /\ (err = None \/ err = Some (errors_New (string_of_list_byte b))).
Proof.
  induction reads as [|r reads IH]; intros c c' b err H; cbn [request_loop] in H.
  - discriminate H.
  - assert (Hrec : request_loop reads c tid = Returns (c', Some b, err) ->
      exists payload,
        In (Datagram payload) (r :: reads) /\ b = skipn 8 (firstn readBufferSize payload)
        /\ (8 <= length (firstn readBufferSize payload))%nat
        /\ (err = None \/ err = Some (errors_New (string_of_list_byte b)))).
    { intros H'. apply IH in H'. destruct H' as (q & Hin & Hq).
      exists q. split; [right; exact Hin|exact Hq]. }
    destruct r as [payload|e].
    + header_cases payload H.
      * discriminate H.
      * apply Hrec. exact H.
      * destruct (negb (rh_TransactionId h =? tid)); [apply Hrec; exact H|].
        apply Returns_inj in H.
        pose proof (f_equal (fun t => snd (fst t)) H) as Hsome. cbn [fst snd] in Hsome.
        pose proof (f_equal snd H) as Herr. cbn [snd] in Herr.
        assert (Hb : skipn 8 (firstn readBufferSize payload) = b) by congruence.
        exists payload. split; [left; reflexivity|].
        destruct (binary_Read_header_inv _ _ _ E) as (H8 & _ & _).
        split; [symmetry; exact Hb|]. split; [exact H8|].
        rewrite <- Herr, Hb. destruct (rh_Action h =? Error); auto.
    + destruct (is_timeout e); discriminate H.
Qed.

(** X13. A response body that [request] returns is what follows the eight
    header bytes in one of the datagrams read during the call, cut to the
    64 KiB read buffer: it is never longer than 65528 bytes; and the error
    that comes with a body, if any, has that body as its text. *)
Theorem response_body_comes_from_a_datagram (c c' : client) (action : Action)
    (args : Body) (options : list byte) (w : World) (b : list byte)
    (err : option error)
    (Hret : request c action args options w = Returns (c', Some b, err)) :
  (exists payload,
     In (Datagram payload) (Reads w)
     /\ b = skipn 8 (firstn readBufferSize payload))
  /\ Z.of_nat (length b) <= 0x10000 - 8
  /\ (err = None \/ err = Some (errors_New (string_of_list_byte b))).
Proof.
  assert (Hloop : exists c1, request_loop (Reads w) c1 (newTransactionId (rand_Uint32 w))
                             = Returns (c', Some b, err)).
  { revert Hret. unfold request.
    destruct (write c _ args options w) as [[c1 [e|]]| |]; cbn [bind]; try discriminate.
    destruct (socket c1); [|discriminate]. intros H. eexists. exact H. }
  destruct Hloop as [c1 Hloop]. apply request_loop_body in Hloop.
  destruct Hloop as (payload & Hin & Hb & H8 & Herr).
  split; [exists payload; split; assumption|]. split; [|exact Herr].
  subst b. rewrite length_skipn.
  pose proof (length_firstn readBufferSize payload) as Hf.
  pose proof readBufferSize_value as Hv. lia.
Qed.

Lemma response_body_comes_from_a_datagram_witness :
  exists c',
    request sample_connected Announce (Serializable []) sample_options
      (sample_World 27 (sample_noise ++ [Datagram sample_announce_reply]))
    = Returns (c', Some sample_announce_body, None)
    /\ Z.of_nat (length sample_announce_body) <= 0x10000 - 8.
Proof.
  destruct (request sample_connected Announce (Serializable []) sample_options
              (sample_World 27 (sample_noise ++ [Datagram sample_announce_reply])))
    as [[[c' [b|]] err]| |] eqn:E; try (vm_compute in E; discriminate E).
  assert (Hb : b = sample_announce_body /\ err = None)
    by (vm_compute in E; inversion E; split; reflexivity).
  destruct Hb as [Hb Herr]. subst b err.
  exists c'. split; [reflexivity|].
  exact (proj1 (proj2 (response_body_comes_from_a_datagram sample_connected c' Announce
                         (Serializable []) sample_options
                         (sample_World 27 (sample_noise ++ [Datagram sample_announce_reply]))
                         sample_announce_body None E))).
Defined.

(** ** The socket *)

(** X14. [Connect] dials only when the client has no socket: with a socket
    the answer of the dialer does not matter to the call.  Without one, a
    dial error ends the call at once: it is returned, nothing is sent, and
    the client still has no socket. *)
Theorem Connect_dials_only_without_socket (c : client) (w : World) (s : Conn)
    (e : error) :
  (socket c = Some s ->
     forall d, UdpTracker.Connect c (with_Dial_error w d) = UdpTracker.Connect c w)
  /\ (connected c (Now_connected w) = false -> socket c = None ->
      Dial_error w = Some e ->
      UdpTracker.Connect c w = Returns (set_connectionId c 0x41727101980, Some e)
      /\ socket (set_connectionId c 0x41727101980) = None).
Proof.
  split.
  - intros Hs d. unfold UdpTracker.Connect.
    cbn [Now_connected with_Dial_error socket set_connectionId]. rewrite Hs.
    reflexivity.
  - intros Hc Hs Hd. unfold UdpTracker.Connect. rewrite Hc.
    cbn [socket set_connectionId]. rewrite Hs, Hd. split; reflexivity.
Qed.

Lemma Connect_dials_only_without_socket_witness :
  UdpTracker.Connect sample_connected
    (with_Dial_error (later_World 16 [Datagram sample_connect_reply])
       (Some connection_refused))
  = UdpTracker.Connect sample_connected (later_World 16 [Datagram sample_connect_reply])
  /\ UdpTracker.Connect sample_new unreachable_World
     = Returns (set_connectionId sample_new 0x41727101980,
                Some (OpError false "dial udp: lookup tracker.example.org: no such host")).
Proof.
  split.
  - exact (proj1 (Connect_dials_only_without_socket sample_connected
                    (later_World 16 [Datagram sample_connect_reply])
                    (dialed (Host sample_URL)) EOF)
             eq_refl (Some connection_refused)).
  - exact (proj1 (proj2 (Connect_dials_only_without_socket sample_new unreachable_World
                           (dialed (Host sample_URL))
                           (OpError false "dial udp: lookup tracker.example.org: no such host"))
                    eq_refl eq_refl eq_refl)).
Defined.

(** ** Waiting *)

Lemma request_loop_waits (reads : list ReadResult) (tid : Z) (c : client) :
  request_loop reads c tid = Unfinished <-> forallb (passed_over tid) reads = true.
Proof.
  induction reads as [|r reads IH]; [split; reflexivity|].
  destruct (passed_over tid r) eqn:Ep.
  - rewrite (request_loop_passes_over tid r reads c Ep).
    cbn [forallb]. rewrite Ep. exact IH.
  - cbn [forallb]. rewrite Ep. cbn [andb]. split; [|discriminate].
    intros H. exfalso. cbn [request_loop] in H. destruct r as [payload|e].
    + unfold passed_over in Ep.
      destruct (binary_Read_header_cases (firstn readBufferSize payload))
        as [[Hnil E]|[[Hlen E]|[Hlen [h E]]]]; rewrite E in H.
      * discriminate H.
      * assert (E0 : (length (firstn readBufferSize payload) =? 0)%nat = false)
          by (apply Nat.eqb_neq; lia).
        assert (E8 : (length (firstn readBufferSize payload) <? 8)%nat = true)
          by (apply Nat.ltb_lt; lia).
        rewrite E0, E8 in Ep. discriminate Ep.
      * assert (E0 : (length (firstn readBufferSize payload) =? 0)%nat = false)
          by (apply Nat.eqb_neq; lia).
        assert (E8 : (length (firstn readBufferSize payload) <? 8)%nat = false)
          by (apply Nat.ltb_ge; lia).
        rewrite E0, E8 in Ep.
        destruct (binary_Read_header_inv _ _ _ E) as (_ & _ & Hh).
        rewrite Hh, Ep in H. discriminate H.
    + destruct (is_timeout e); discriminate H.
Qed.

Lemma request_loop_never_panics (reads : list ReadResult) (tid : Z) :
  forall c v, request_loop reads c tid <> Panics v.
Proof.
  induction reads as [|r reads IH]; intros c v H; cbn [request_loop] in H.
  - discriminate H.
  - destruct r as [payload|e].
    + header_cases payload H.
      * discriminate H.
      * exact (IH c v H).
      * destruct (negb (rh_TransactionId h =? tid)); [exact (IH c v H)|discriminate H].
    + destruct (is_timeout e); discriminate H.
Qed.

(** X15. Once the datagram is out, a call is still reading exactly as long
    as every read gave a datagram that is passed over (one to seven bytes,
    or a whole header with another transaction id); any other read ends the
    call, and reading never panics. *)
Theorem request_waits_exactly_on_noise (c : client) (action : Action) (args : Body)
    (options : list byte) (w : World) (reads : list ReadResult)
    (Hw : write_ok c action args options w = true) :
  (request c action args options (with_Reads w reads) = Unfinished
   <-> forallb (passed_over (newTransactionId (rand_Uint32 w))) reads = true)
  /\ (forall v, request c action args options (with_Reads w reads) <> Panics v).
Proof.
  rewrite (request_listening c action args options w reads Hw). split.
  - apply request_loop_waits.
  - intros v. apply request_loop_never_panics.
Qed.

Lemma request_waits_exactly_on_noise_witness :
  request sample_connected Announce (Serializable []) sample_options
    (with_Reads (sample_World 27 []) sample_noise) = Unfinished
  /\ request sample_connected Announce (Serializable []) sample_options
       (with_Reads (sample_World 27 []) (sample_noise ++ [Datagram []])) <> Unfinished.
Proof.
  assert (Hw : write_ok sample_connected Announce (Serializable []) sample_options
                 (sample_World 27 []) = true) by (vm_compute; reflexivity).
  split.
  - apply (proj1 (request_waits_exactly_on_noise sample_connected Announce
                    (Serializable []) sample_options (sample_World 27 [])
                    sample_noise Hw)).
    vm_compute. reflexivity.
  - intros H.
    apply (proj1 (request_waits_exactly_on_noise sample_connected Announce
                    (Serializable []) sample_options (sample_World 27 [])
                    (sample_noise ++ [Datagram []]) Hw)) in H.
    vm_compute in H. discriminate H.
Defined.

(** ** The earlier revision *)

(** X16. The earlier [Announce] never returns a peer: the peers are read
    into a slice of length zero, so whatever follows the announce header in
    the response is left unread, and a response of twelve bytes or more
    decodes without an error to the three header fields alone. *)
Theorem Earlier_Announce_returns_no_peers (b : list byte) :
  tracker.Peers (fst (Earlier.Announce_response b)) = []
  /\ (snd (Earlier.Announce_response b) = None <-> (12 <= length b)%nat)
  /\ (forall (c c' : Earlier.client) (req : Body) (w0 w : World) res err,
        Earlier.Announce c req w0 w = Returns (c', res, err) -> tracker.Peers res = []).
Proof.
  assert (Hpeers : tracker.Peers (fst (Earlier.Announce_response b)) = []
                   /\ (snd (Earlier.Announce_response b) = None <-> (12 <= length b)%nat)).
  { unfold Earlier.Announce_response, Earlier.readBody2.
    destruct (Nat.ltb (length b) 12) eqn:E.
    - apply Nat.ltb_lt in E. destruct b as [|x b].
      + rewrite (binary_Read_empty (F := Fixed_AnnounceResponseHeader)) by (simpl; lia).
        cbn. split; [reflexivity|]. split; [discriminate|lia].
      + rewrite (binary_Read_short (F := Fixed_AnnounceResponseHeader))
          by (simpl in *; lia).
        cbn [fst snd tracker.Peers tracker.zeroAnnounceResponse].
        split; [reflexivity|]. split; [discriminate|simpl in *; lia].
    - apply Nat.ltb_ge in E.
      rewrite (binary_Read_enough (F := Fixed_AnnounceResponseHeader)) by (simpl; lia).
      unfold binary_Read. cbn [dataSize Fixed_Peers Nat.mul ReadFull decode decode_Peers
        map fst snd tracker.Peers].
      split; [reflexivity|]. split; [intros _; exact E|reflexivity]. }
  split; [exact (proj1 Hpeers)|]. split; [exact (proj2 Hpeers)|].
  clear b Hpeers. intros c c' req w0 w res err. unfold Earlier.Announce.
  destruct (Earlier.connect c w0) as [[c1 [e|]]| |]; cbn [bind]; try discriminate.
  - intros H. apply Returns_inj in H.
    apply (f_equal (fun t => snd (fst t))) in H. cbn [fst snd] in H. subst res.
    reflexivity.
  - destruct (Earlier.request c1 Announce req w) as [[[c2 b] [e|]]| |];
      cbn [bind]; try discriminate.
    + intros H. apply Returns_inj in H.
      apply (f_equal (fun t => snd (fst t))) in H. cbn [fst snd] in H. subst res.
      reflexivity.
    + assert (Hb : tracker.Peers (fst (Earlier.Announce_response b)) = []).
      { unfold Earlier.Announce_response, Earlier.readBody2.
        destruct (binary_Read (A := AnnounceResponseHeader) b) as [r [h|e]];
          [|reflexivity].
        unfold binary_Read. cbn [dataSize Fixed_Peers Nat.mul ReadFull decode
          decode_Peers map fst tracker.Peers]. reflexivity. }
      destruct (Earlier.Announce_response b) as [res1 err1].
      intros H. apply Returns_inj in H.
      apply (f_equal (fun t => snd (fst t))) in H. cbn [fst snd] in H. subst res.
      exact Hb.
Qed.

(** X17. The earlier handshake never completes: [connect] hands the nil
    body to [binary.Write], which does not take it, so a client whose
    receipt time is the zero time (every client [newClient] makes) panics in
    [connect] and in [Announce], and [connect] returns only for a client
    that is connected already, which it leaves as it is. *)
Theorem Earlier_connect_never_completes (c : Earlier.client) (w : World) :
  (IsZero (Earlier.connectionIdReceived c) = true ->
     (exists v, Earlier.connect c w = Panics v)
     /\ (forall req w', exists v, Earlier.Announce c req w w' = Panics v))
  /\ (forall c' err, Earlier.connect c w = Returns (c', err) -> c' = c /\ err = None)
  /\ IsZero (Earlier.connectionIdReceived Earlier.newClient) = true.
Proof.
  split; [|split; [|reflexivity]].
  - intros Hz.
    assert (Hp : Earlier.connect c w = Panics "binary.Write: invalid type").
    { unfold Earlier.connect. rewrite Hz. reflexivity. }
    split; [eexists; exact Hp|].
    intros req w'. unfold Earlier.Announce. rewrite Hp. eexists. reflexivity.
  - intros c' err. unfold Earlier.connect.
    destruct (negb (IsZero (Earlier.connectionIdReceived c))
              && Before (Now_connected w) (Add (Earlier.connectionIdReceived c) Minute)).
    + intros H. apply Returns_inj in H. injection H as Hc He. auto.
    + discriminate.
Qed.

Lemma Earlier_connect_never_completes_witness :
  (exists v, Earlier.connect Earlier.newClient (sample_World 16 [Datagram sample_connect_reply])
             = Panics v)
  /\ exists v, Earlier.Announce Earlier.newClient (Serializable [])
                 (sample_World 16 [Datagram sample_connect_reply])
                 (sample_World 16 [Datagram sample_announce_reply]) = Panics v.
Proof.
  destruct (proj1 (Earlier_connect_never_completes Earlier.newClient
                     (sample_World 16 [Datagram sample_connect_reply])) eq_refl)
    as [Hc Ha].
  split; [exact Hc|].
  exact (Ha (Serializable []) (sample_World 16 [Datagram sample_announce_reply])).
Defined.

Lemma Earlier_request_loop_errors (reads : list ReadResult) (action tid : Z) :
  forall (c c' : Earlier.client) b e,
    Earlier.request_loop reads c action tid = Returns (c', b, Some e) ->
    b = [] /\ (e = EOF \/ In (ReadError e) reads).
Proof.
  induction reads as [|r reads IH]; intros c c' b e H; cbn [Earlier.request_loop] in H.
  - discriminate H.
  - assert (Hrec : Earlier.request_loop reads c action tid = Returns (c', b, Some e) ->
                   b = [] /\ (e = EOF \/ In (ReadError e) (r :: reads))).
    { intros H'. apply IH in H'. destruct H' as [Hb [He|He]]; split; auto.
      right. right. exact He. }
    destruct r as [payload|e0].
    + header_cases payload H.
      * apply Returns_inj in H.
        assert (Hb : [] = b) by congruence. assert (He : EOF = e) by congruence.
        subst. auto.
      * apply Hrec. exact H.
      * destruct (negb (rh_Action h =? action)); [apply Hrec; exact H|].
        destruct (negb (rh_TransactionId h =? tid)); [apply Hrec; exact H|].
        discriminate H.
    + destruct (is_timeout e0); apply Returns_inj in H;
        (assert (Hb : [] = b) by congruence); (assert (He : e0 = e) by congruence);
        subst; split; auto; right; left; reflexivity.
Qed.

(** X18. The earlier [request] reports no error of the tracker: an error
    it returns is the error of the write, the error of a read, or [io.EOF]
    for an empty datagram, and it comes with no body.  A response with the
    [Error] action is dropped like any datagram whose action is not the
    requested one. *)
Theorem Earlier_request_reports_transport_errors_only (c c' : Earlier.client)
    (action : Action) (args : Body) (w : World) (b : list byte) (e : error)
    (Hret : Earlier.request c action args w = Returns (c', b, Some e)) :
  b = []
  /\ (e = EOF \/ In (ReadError e) (Reads w) \/ snd (Write_result w) = Some e)
  /\ (action <> Error ->
      forall body rest c0 tid,
        Z.of_nat (length body) + 8 <= 0x10000 -> - 2 ^ 31 <= tid < 2 ^ 31 ->
        Earlier.request_loop (Datagram (response_datagram Error tid body) :: rest)
          c0 action tid
        = Earlier.request_loop rest c0 action tid).
Proof.
  assert (Hmain : b = [] /\ (e = EOF \/ In (ReadError e) (Reads w)
                             \/ snd (Write_result w) = Some e)).
  { revert Hret. unfold Earlier.request, Earlier.write.
    destruct args as [|bs|e0]; cbn [bind]; try discriminate.
    destruct (Earlier.socket c) as [s|]; cbn [bind]; [|discriminate].
    destruct (Write_result w) as [n [ew|]]; cbn [bind snd].
    - intros H. apply Returns_inj in H.
      assert (Hb : [] = b) by congruence. assert (He : ew = e) by congruence.
      subst. auto.
    - destruct (negb _); cbn [bind]; [discriminate|].
      cbn [Earlier.socket Earlier.set_socket].
      intros H. apply Earlier_request_loop_errors in H.
      destruct H as [Hb [He|He]]; auto. }
  split; [exact (proj1 Hmain)|]. split; [exact (proj2 Hmain)|].
  intros Hact body rest c0 tid Hlen Htid.
  cbn [Earlier.request_loop].
  rewrite (response_datagram_header Error tid body ltac:(unfold Error; lia) Htid Hlen).
  cbn [rh_Action]. apply Z.eqb_neq in Hact. rewrite Z.eqb_sym, Hact. reflexivity.
Qed.

Lemma Earlier_request_reports_transport_errors_only_witness :
  exists c',
    Earlier.request sample_earlier Announce (Serializable [])
      (sample_World 16 [Datagram sample_error_reply; ReadError io_timeout])
    = Returns (c', [], Some io_timeout)
    /\ In (ReadError io_timeout)
         (Reads (sample_World 16 [Datagram sample_error_reply; ReadError io_timeout])).
Proof.
  destruct (Earlier.request sample_earlier Announce (Serializable [])
              (sample_World 16 [Datagram sample_error_reply; ReadError io_timeout]))
    as [[[c' b] [e|]]| |] eqn:E; try (vm_compute in E; discriminate E).
  assert (He : e = io_timeout) by (vm_compute in E; inversion E; reflexivity).
  subst e.
  destruct (Earlier_request_reports_transport_errors_only sample_earlier c' Announce
              (Serializable [])
              (sample_World 16 [Datagram sample_error_reply; ReadError io_timeout])
              b io_timeout E) as (Hb & _ & _).
  subst b. exists c'. split; [reflexivity|].
  right. left. reflexivity.
Defined.
